(** * Firmware version resolution of notecard-mcp (src/firmware.ts)

    A shallow embedding of [compareVersions], [extractKeysFromXml],
    [extractAvailableVersions], [listAvailableFirmwareVersions],
    [getNotecardTypeFromModel] and [findFirmwareUrl], followed by the
    properties the specification states about them.  The embedding also
    covers the callers in index.ts (the handlers of the firmware tools and
    of the port tool) and, from api.ts, [parseTypesString] and the merge
    of scraped requests, with properties read off that code.

    Conventions of the embedding:
    - a JavaScript string is a [string] (a sequence of characters; every
      operation the source uses works position by position, so nothing
      depends on the width of a character);
    - [null]/[undefined] are [None];
    - the [fetch] call is the only effect: its outcome is an explicit
      argument ([fetch_outcome]), and a rejected promise is [Rejected];
    - [console.error] diagnostics are not part of the result and are left
      out;
    - a loop body is a step function and the loop a [fold_left] over the
      array, or a [Fixpoint] over the index when the source indexes. *)

From Stdlib Require Import String Ascii List ZArith NArith Bool Lia.
From Stdlib Require Import DecimalString.
From Stdlib Require Import Permutation.
Import ListNotations.
Open Scope string_scope.

(** ** JavaScript primitives used by the source *)

Module JS.

(** [s.includes(sub)]: [sub] occurs somewhere in [s]. *)
Fixpoint includes (sub s : string) : bool :=
  String.prefix sub s ||
  match s with
  | EmptyString => false
  | String _ s' => includes sub s'
  end.

(** [s.endsWith(suf)]: some tail of [s] is exactly [suf]. *)
Fixpoint endsWith (suf s : string) : bool :=
  String.eqb s suf ||
  match s with
  | EmptyString => false
  | String _ s' => endsWith suf s'
  end.

(** [s.substring(n)]. *)
Fixpoint drop (n : nat) (s : string) : string :=
  match n, s with
  | O, _ => s
  | S _, EmptyString => EmptyString
  | S n', String _ s' => drop n' s'
  end.

(** [s.split(sep)] for a one-character separator: never the empty list. *)
Fixpoint split (sep : ascii) (s : string) : list string :=
  match s with
  | EmptyString => [EmptyString]
  | String c s' =>
      if Ascii.eqb c sep then EmptyString :: split sep s'
      else match split sep s' with
           | [] => [String c EmptyString]
           | p :: ps => String c p :: ps
           end
  end.

(** [xs.join(sep)]. *)
Definition join (sep : string) (xs : list string) : string :=
  String.concat sep xs.

(** Truthiness of a [string | null] value: [null] and [''] are falsy. *)
Definition truthy (v : option string) : bool :=
  match v with
  | None => false
  | Some s => negb (String.eqb s EmptyString)
  end.

(** The regular-expression class [\d]. *)
Definition is_digit (c : ascii) : bool :=
  (48 <=? nat_of_ascii c)%nat && (nat_of_ascii c <=? 57)%nat.

Fixpoint all_digits (s : string) : bool :=
  match s with
  | EmptyString => true
  | String c s' => is_digit c && all_digits s'
  end.

(** The numbers [compareVersions] handles: a non-negative integral double,
    [Infinity], or [NaN]. *)
Inductive number : Type :=
  | NaN
  | Fin (n : N)
  | Infinity.

(** Value of a decimal digit string, most significant digit first. *)
Fixpoint decimal_value (acc : N) (s : string) : N :=
  match s with
  | EmptyString => acc
  | String c s' => decimal_value (10 * acc + (N_of_ascii c - 48)) s'
  end.

(** Rounding of a natural number to the nearest double (ties to even):
    exact below 2^53, 53 significant bits above, [Infinity] from 2^1024.
    (ECMAScript lets an engine approximate a literal past its 20th
    significant digit; this is the correctly rounded value, which is what
    Node's engine returns.) *)
Definition round_double (n : N) : number :=
  if (n <? 2 ^ 53)%N then Fin n
  else
    let e := (N.log2 n - 52)%N in
    let q := N.shiftr n e in
    let r := (n mod 2 ^ e)%N in
    let half := (2 ^ (e - 1))%N in
    let q' := if (half <? r)%N || ((r =? half)%N && N.odd q) then (q + 1)%N else q in
    let v := (q' * 2 ^ e)%N in
    if (2 ^ 1024 <=? v)%N then Infinity else Fin v.

(** [Number(s)] on the strings that [split('.')] yields for dotted-numeric
    text: the empty string is 0, a run of decimal digits is its value as a
    double, other text is [NaN].  (The further literal forms [Number]
    accepts -- sign, exponent, radix prefix, surrounding blanks,
    ["Infinity"] -- are not version components and are not modelled.) *)
Definition Number (s : string) : number :=
  match s with
  | EmptyString => Fin 0
  | _ => if all_digits s then round_double (decimal_value 0 s) else NaN
  end.

(** [x || 0] where [x] is an array element: [undefined] (index out of
    range), [NaN] and [0] are falsy and give [0]. *)
Definition or_zero (x : option number) : number :=
  match x with
  | None => Fin 0
  | Some NaN => Fin 0
  | Some (Fin n) => Fin n
  | Some Infinity => Infinity
  end.

(** The relational operators [>] and [<] on numbers; any comparison with
    [NaN] is false. *)
Definition gt (a b : number) : bool :=
  match a, b with
  | Fin x, Fin y => (y <? x)%N
  | Infinity, Fin _ => true
  | _, _ => false
  end.

Definition lt (a b : number) : bool :=
  match a, b with
  | Fin x, Fin y => (x <? y)%N
  | Fin _, Infinity => true
  | _, _ => false
  end.

(** Template-literal rendering of a non-negative integer such as
    [res.status]. *)
Definition show_N (n : N) : string :=
  NilZero.string_of_uint (N.to_uint n).

End JS.

Import JS.

(** ** compareVersions *)

(** The [for (let i = 0; i < len; i++)] loop; [todo] is [len - i]. *)
Fixpoint compare_loop (parts1 parts2 : list number) (i todo : nat) : Z :=
  match todo with
  | O => 0
  | S todo' =>
      let p1 := or_zero (nth_error parts1 i) in
      let p2 := or_zero (nth_error parts2 i) in
      if gt p1 p2 then 1
      else if lt p1 p2 then (-1)
      else compare_loop parts1 parts2 (S i) todo'
  end%Z.

Definition compareVersions (v1 v2 : string) : Z :=
  let parts1 := map Number (split "." v1) in
  let parts2 := map Number (split "." v2) in
  let len := Nat.max (length parts1) (length parts2) in
  compare_loop parts1 parts2 0 len.

(** A well-formed Version: non-empty runs of decimal digits separated by
    dots. *)
Definition digit_run (s : string) : bool :=
  negb (String.eqb s EmptyString) && all_digits s.

Definition well_formed_version (v : string) : bool :=
  forallb digit_run (split "." v).

(** ** extractKeysFromXml *)

(** [.] of a regular expression matches any character but a line
    terminator: line feed and carriage return (the two further
    terminators U+2028 and U+2029 lie outside the characters of
    [ascii]). *)
Definition is_line_terminator (c : ascii) : bool :=
  Ascii.eqb c "010"%char || Ascii.eqb c "013"%char.

(** The tail [(.*?)<\/Key>] of the pattern, tried at [s]: the shortest run
    of non-terminator characters followed by the closing marker. *)
Fixpoint key_body (s : string) : option string :=
  if String.prefix "</Key>" s then Some EmptyString
  else match s with
       | EmptyString => None
       | String c s' =>
           if is_line_terminator c then None
           else option_map (String c) (key_body s')
       end.

(** The [while ((match = keyRegex.exec(xmlString)) !== null)] loop.  The
    pattern is tried at every position from [lastIndex] on; after a match
    [lastIndex] is the end of the match, which [skip] counts down to. *)
Fixpoint keys_from (skip : nat) (s : string) : list string :=
  match s with
  | EmptyString => []
  | String _ s' =>
      match skip with
      | S n => keys_from n s'
      | O =>
          if String.prefix "<Key>" s then
            match key_body (drop 5 s) with
            | Some k => k :: keys_from (4 + String.length k + 6) s'
            | None => keys_from 0 s'
            end
          else keys_from 0 s'
      end
  end.

Definition extractKeysFromXml (xmlString : string) : list string :=
  keys_from 0 xmlString.

(** ** The version pattern [/-(\d+\.\d+\.\d+\.\d+)\.(?:bin|dfu)/] *)

Definition bind {A B : Type} (x : option A) (f : A -> option B) : option B :=
  match x with
  | Some a => f a
  | None => None
  end.

Notation "x <- e ;; k" := (bind e (fun x => k))
  (at level 61, e at next level, right associativity).
Notation "' p <- e ;; k" := (bind e (fun x => let p := x in k))
  (at level 61, p pattern, e at next level, right associativity).

(** A literal of the pattern: the rest of the text after it. *)
Definition lit (p s : string) : option string :=
  if String.prefix p s then Some (drop (String.length p) s) else None.

(** The longest run of digits at the head of [s], and what follows it. *)
Fixpoint digits_prefix (s : string) : string * string :=
  match s with
  | EmptyString => (EmptyString, EmptyString)
  | String c s' =>
      if is_digit c then
        let (d, r) := digits_prefix s' in (String c d, r)
      else (EmptyString, s)
  end.

(** [\d+].  Every [\d+] of the pattern is followed by [\.], so giving back
    digits never helps: only the longest run can be followed by a dot. *)
Definition digits1 (s : string) : option (string * string) :=
  match digits_prefix s with
  | (EmptyString, _) => None
  | (d, r) => Some (d, r)
  end.

(** The pattern tried at the head of [s]; the result is capture group 1. *)
Definition versionRegex_at (s : string) : option string :=
  r0 <- lit "-" s ;;
  '(a, r1) <- digits1 r0 ;;
  r2 <- lit "." r1 ;;
  '(b, r3) <- digits1 r2 ;;
  r4 <- lit "." r3 ;;
  '(c, r5) <- digits1 r4 ;;
  r6 <- lit "." r5 ;;
  '(d, r7) <- digits1 r6 ;;
  r8 <- lit "." r7 ;;
  if String.prefix "bin" r8 || String.prefix "dfu" r8
  then Some (a ++ "." ++ b ++ "." ++ c ++ "." ++ d)
  else None.

(** [key.match(versionRegex)] followed by [versionMatch[1]]: the leftmost
    position where the pattern matches. *)
Fixpoint versionRegex_match (key : string) : option string :=
  match versionRegex_at key with
  | Some v => Some v
  | None =>
      match key with
      | EmptyString => None
      | String _ key' => versionRegex_match key'
      end
  end.

(** [versionMatch && versionMatch[1]] as a value: the captured Version when
    there is a match and the capture is truthy. *)
Definition key_version (key : string) : option string :=
  match versionRegex_match key with
  | Some v => if truthy (Some v) then Some v else None
  | None => None
  end.

(** ** extractAvailableVersions *)

(** [Set.prototype.add] on a set kept in insertion order. *)
Definition set_add (v : string) (s : list string) : list string :=
  if existsb (String.eqb v) s then s else s ++ [v].

(** One iteration of [for (const key of relevantKeys)]. *)
Definition add_key (availableVersions : list string) (key : string) : list string :=
  match key_version key with
  | Some v => set_add v availableVersions
  | None => availableVersions
  end.

Definition extractAvailableVersions (relevantKeys : list string) : list string :=
  fold_left add_key relevantKeys [].

(** ** The fetch of the bucket listing *)

Inductive fetch_outcome : Type :=
  | FetchRejected (message : string)
  | FetchResponse (ok : bool) (status : N) (statusText text : string).

(** A settled promise. *)
Inductive promise (A : Type) : Type :=
  | Resolved (a : A)
  | Rejected (message : string).
Arguments Resolved {A} a.
Arguments Rejected {A} message.

(** [await fetch(url).then(res => ...)]: the text of the listing, or the
    message of the error thrown. *)
Definition fetch_text (fetched : fetch_outcome) : string + string :=
  match fetched with
  | FetchRejected message => inl message
  | FetchResponse ok status statusText text =>
      if ok then inr text
      else inl ("Failed to fetch firmware index: " ++ show_N status ++ " " ++ statusText)
  end.

(** [allKeys.filter(key => key.includes(`-${notecardType}-`))]. *)
Definition relevant (notecardType : string) (allKeys : list string) : list string :=
  filter (fun key => includes ("-" ++ notecardType ++ "-") key) allKeys.

(** ** listAvailableFirmwareVersions *)

Definition listAvailableFirmwareVersions
    (fetched : fetch_outcome) (updateType notecardType : string)
    : promise (list string) :=
  match fetch_text fetched with
  | inl message => Rejected ("Could not list firmware versions: " ++ message)
  | inr firmwareIndexXml =>
      let allKeys := extractKeysFromXml firmwareIndexXml in
      if (length allKeys =? 0)%nat then Resolved []
      else
        let relevantKeys := relevant notecardType allKeys in
        if (length relevantKeys =? 0)%nat then Resolved []
        else Resolved (extractAvailableVersions relevantKeys)
  end.

(** ** getNotecardTypeFromModel *)

(** [Object.entries(notecardTypeMap)]: no key is an array index, so the
    entries come in the order the literal declares them. *)
Definition notecardTypeMap : list (string * list string) :=
  [ ("", ["500"]);
    ("u5", ["NB"; "MB"; "WB"]);
    ("wl", ["LW"]);
    ("s3", ["ESP"]) ].

(** The inner [for (const substring of modelSubstrings)] loop: [true] when
    it reaches its [return]. *)
Fixpoint any_substring (notecardModel : string) (modelSubstrings : list string) : bool :=
  match modelSubstrings with
  | [] => false
  | substring :: rest =>
      if includes substring notecardModel then true
      else any_substring notecardModel rest
  end.

(** The outer [for (const [key, modelSubstrings] of ...)] loop. *)
Fixpoint type_loop (notecardModel : string) (entries : list (string * list string))
    : option string :=
  match entries with
  | [] => None
  | (key, modelSubstrings) :: rest =>
      if any_substring notecardModel modelSubstrings then Some key
      else type_loop notecardModel rest
  end.

Definition getNotecardTypeFromModel (notecardModel : option string) : option string :=
  match notecardModel with
  | None => None
  | Some model =>
      if negb (truthy notecardModel) then None
      else type_loop model notecardTypeMap
  end.

(** ** findFirmwareUrl *)

(** The two variables the selection loop updates. *)
Record selection : Type := mkSelection {
  selectedKey : option string;
  latestVersion : string
}.

Definition initial_selection : selection :=
  mkSelection None "0.0.0.0".

(** [selectedKey.endsWith(suf)] under a guard that [selectedKey] is
    truthy. *)
Definition selected_endsWith (suf : string) (sel : option string) : bool :=
  match sel with
  | Some k => endsWith suf k
  | None => false
  end.

(** One iteration of [for (const key of relevantKeys)]. *)
Definition select_step (versionToUse : string) (st : selection) (key : string) : selection :=
  match key_version key with
  | None => st
  | Some keyVersion =>
      if String.eqb versionToUse "latest" then
        if (compareVersions keyVersion (latestVersion st) >? 0)%Z then
          mkSelection (Some key) keyVersion
        else if (compareVersions keyVersion (latestVersion st) =? 0)%Z
                && truthy (selectedKey st)
                && negb (endsWith ".bin" key)
                && selected_endsWith ".dfu" (selectedKey st) then
          mkSelection (Some key) (latestVersion st)
        else st
      else if String.eqb keyVersion versionToUse then
        if negb (truthy (selectedKey st))
           || (truthy (selectedKey st)
               && negb (selected_endsWith ".bin" (selectedKey st))
               && endsWith ".bin" key)
           || endsWith ".bin" key then
          mkSelection (Some key) (latestVersion st)
        else st
      else st
  end.

Definition select_from (versionToUse : string) (st : selection) (keys : list string)
    : selection :=
  fold_left (select_step versionToUse) keys st.

Definition select_keys (versionToUse : string) (relevantKeys : list string) : selection :=
  select_from versionToUse initial_selection relevantKeys.

Definition firmware_host : string := "https://notecard-firmware.s3.amazonaws.com/".

(** [availableVersions.join(', ') || 'None']. *)
Definition available_or_none (availableVersions : list string) : string :=
  let joined := join ", " availableVersions in
  if truthy (Some joined) then joined else "None".

Definition version_not_found_message
    (versionToUse notecardType : string) (availableVersions : list string) : string :=
  "Firmware version '" ++ versionToUse ++ "' not found for Notecard type '"
    ++ notecardType ++ "'. Available: " ++ available_or_none availableVersions.

Definition no_valid_versions_message
    (notecardType : string) (availableVersions : list string) : string :=
  let availableMsg :=
    if (0 <? length availableVersions)%nat
    then " Available: " ++ join ", " availableVersions
    else "" in
  "Could not find any valid firmware versions for Notecard type '"
    ++ notecardType ++ "'." ++ availableMsg.

Definition no_files_for_type_message (notecardType updateType : string) : string :=
  "No firmware files found for Notecard type '" ++ notecardType
    ++ "' with prefix '" ++ updateType ++ "'.".

Definition no_files_message (updateType : string) : string :=
  "No firmware files found in S3 XML for prefix '" ++ updateType ++ "'.".

(** Steps 3 and 4 of the [try] block, from the relevant keys on: [inl] is
    the message of a thrown error, [inr None] is [return null],
    [inr (Some url)] is [return firmwareUrl]. *)
Definition findFirmwareUrl_select
    (relevantKeys : list string) (notecardType versionToUse : string)
    (currentVersion : option string) : string + option string :=
  let availableVersions := extractAvailableVersions relevantKeys in
  let st := select_keys versionToUse relevantKeys in
  let isLatest := String.eqb versionToUse "latest" in
  if isLatest && truthy currentVersion
     && (match currentVersion with
         | Some cur => (compareVersions cur (latestVersion st) >=? 0)%Z
         | None => false
         end) then
    inr None
  else if negb isLatest && negb (truthy (selectedKey st)) then
    inl (version_not_found_message versionToUse notecardType availableVersions)
  else if isLatest && negb (truthy (selectedKey st)) then
    inl (no_valid_versions_message notecardType availableVersions)
  else
    match selectedKey st with
    | Some key =>
        if truthy (selectedKey st) then inr (Some (firmware_host ++ key))
        else inl "Could not determine appropriate firmware key after filtering."
    | None => inl "Could not determine appropriate firmware key after filtering."
    end.

(** The body of the [try] block. *)
Definition findFirmwareUrl_try
    (fetched : fetch_outcome) (updateType notecardType versionToUse : string)
    (currentVersion : option string) : string + option string :=
  match fetch_text fetched with
  | inl message => inl message
  | inr firmwareIndexXml =>
      let allKeys := extractKeysFromXml firmwareIndexXml in
      if (length allKeys =? 0)%nat then inl (no_files_message updateType)
      else
        let relevantKeys := relevant notecardType allKeys in
        if (length relevantKeys =? 0)%nat then
          inl (no_files_for_type_message notecardType updateType)
        else
          findFirmwareUrl_select relevantKeys notecardType versionToUse currentVersion
  end.

(** The whole function: the [catch] re-throws with a prefix. *)
Definition findFirmwareUrl
    (fetched : fetch_outcome) (updateType notecardType versionToUse : string)
    (currentVersion : option string) : promise (option string) :=
  match findFirmwareUrl_try fetched updateType notecardType versionToUse currentVersion with
  | inl message => Rejected ("Could not find firmware: " ++ message)
  | inr result => Resolved result
  end.

(** ** The specification's comparator, for comparison with the code *)

(** The components of a Version, as the specification parses them. *)
Definition version_components (v : string) : list number :=
  map Number (split "." v).

(** Missing trailing components are 0. *)
Definition pad_zeros (n : nat) (l : list number) : list number :=
  l ++ repeat (Fin 0) (n - length l).

(** Left-to-right comparison of two tuples of equal length. *)
Fixpoint lex_compare (a b : list number) : Z :=
  match a, b with
  | x :: a', y :: b' =>
      if gt x y then 1 else if lt x y then (-1) else lex_compare a' b'
  | _, _ => 0
  end%Z.

Definition compare_spec (v1 v2 : string) : Z :=
  let c1 := version_components v1 in
  let c2 := version_components v2 in
  let n := Nat.max (length c1) (length c2) in
  lex_compare (pad_zeros n c1) (pad_zeros n c2).

(** ** Vocabulary of the statements *)

(** The artifact format of a key, as the code tells it: by its suffix. *)
Definition is_bin (key : string) : bool := endsWith ".bin" key.
Definition is_dfu (key : string) : bool := endsWith ".dfu" key.

(** A successful fetch of a listing. *)
Definition fetched_ok (xml : string) : fetch_outcome :=
  FetchResponse true 200 "OK" xml.

(** The hardware-filtered keys of a listing. *)
Definition filtered_keys (notecardType xml : string) : list string :=
  relevant notecardType (extractKeysFromXml xml).

(** [w] is a Version some key of [keys] encodes. *)
Definition encoded (keys : list string) (w : string) : Prop :=
  exists key, In key keys /\ key_version key = Some w.

(** What the "latest" scan maintains after the keys [seen]: the tracked
    version bounds every Version seen, it is the initial ['0.0.0.0'] as
    long as no key is selected, and a selected key is a seen key whose
    Version compares equal to the tracked one. *)
Definition latest_invariant (seen : list string) (st : selection) : Prop :=
  (forall w, encoded seen w -> (compareVersions w (latestVersion st) <= 0)%Z) /\
  (selectedKey st = None -> latestVersion st = "0.0.0.0") /\
  (forall k, selectedKey st = Some k ->
     In k seen /\
     exists v, key_version k = Some v /\ compareVersions v (latestVersion st) = 0%Z).

(** What the scan for a specific version maintains: a selected key is a
    seen key encoding that version, and one is selected as soon as one was
    seen. *)
Definition specific_invariant (versionToUse : string) (seen : list string)
    (st : selection) : Prop :=
  (forall k, selectedKey st = Some k ->
     In k seen /\ key_version k = Some versionToUse) /\
  (encoded seen versionToUse -> exists k, selectedKey st = Some k).

(** The "latest" scan selects a key of maximal Version among [keys]. *)
Definition selects_maximum (keys : list string) : Prop :=
  exists key v,
    selectedKey (select_keys "latest" keys) = Some key /\
    In key keys /\
    key_version key = Some v /\
    forall w, encoded keys w -> (compareVersions v w >= 0)%Z.

(** The listings of the end-to-end scenarios: one release of the "u5"
    firmware in both formats, in either order. *)
Definition dfu_key : string := "LTS/notecard-u5-6.2.5.16868.dfu".
Definition bin_key : string := "LTS/notecard-u5-6.2.5.16868.bin".

Definition listing_of (keys : list string) : string :=
  "<ListBucketResult><Name>notecard-firmware</Name>"
    ++ String.concat ""
         (map (fun key => "<Contents><Key>" ++ key ++ "</Key></Contents>") keys)
    ++ "</ListBucketResult>".

Definition scenario_listing : string := listing_of [dfu_key; bin_key].
Definition scenario_listing_bin_first : string := listing_of [bin_key; dfu_key].

(** A listing whose only release is numbered 0.0.0.0, and one whose only
    key carries no version. *)
Definition zero_listing : string := listing_of ["LTS/notecard-u5-0.0.0.0.bin"].
Definition unversioned_listing : string := listing_of ["LTS/notecard-u5-readme.txt"].

(** No two entries of a list are the same Version, Versions being equal
    when the comparator returns 0 on them. *)
Definition no_equal_versions (versions : list string) : Prop :=
  forall (i j : nat) (v w : string),
    nth_error versions i = Some v -> nth_error versions j = Some w ->
    i <> j -> compareVersions v w <> 0%Z.

(** A listing with three releases, the highest in the middle. *)
Definition newest_key : string := "LTS/notecard-u5-7.5.2.17004.bin".

Definition three_versions_listing : string :=
  listing_of ["LTS/notecard-u5-6.2.5.16868.bin"; newest_key;
              "LTS/notecard-u5-6.2.5.9.bin"].

(** No substring of a mapping entry occurs in the model. *)
Definition entry_misses (model : string) (entry : string * list string) : Prop :=
  forall sub : string, In sub (snd entry) -> includes sub model = false.

(** ** Further vocabulary *)

(** Every character of [s] passes [f]. *)
Fixpoint all_chars (f : ascii -> bool) (s : string) : bool :=
  match s with
  | EmptyString => true
  | String c s' => f c && all_chars f s'
  end.

(** A key as a bucket listing prints it between its markers: on one line
    and with no ["<"] (the listing writes that character as an entity). *)
Definition plain_key (k : string) : bool :=
  all_chars (fun c => negb (Ascii.eqb c "<") && negb (is_line_terminator c)) k.

(** A key that [extractKeysFromXml] can return: on one line and without
    the closing marker inside it. *)
Definition extracted_key (k : string) : Prop :=
  all_chars (fun c => negb (is_line_terminator c)) k = true /\
  includes "</Key>" k = false.

(** ** The firmware tools of index.ts *)

(** The listing is fetched from this address. *)
Definition firmwareIndexUrl (updateType : string) : string :=
  "https://s3.us-east-1.amazonaws.com/notecard-firmware?prefix=" ++ updateType.

(** [a || b] on [string | null | undefined] values. *)
Definition or_else (a b : option string) : option string :=
  if truthy a then a else b.

(** [a || 'literal']. *)
Definition or_default (a : option string) (d : string) : string :=
  match a with
  | Some s => if truthy a then s else d
  | None => d
  end.

(** [`${v}`] for a value that may be [undefined] or [null]. *)
Definition show_or (missing : string) (v : option string) : string :=
  match v with
  | Some s => s
  | None => missing
  end.

Definition validTypes : list string := ["LTS"; "DevRel"; "nightly"].

Definition unknown_model_text (notecardModel : option string) : string :=
  "Error: Could not determine Notecard type for model '"
    ++ show_or "undefined" notecardModel ++ "'. Check the provided model.".

Definition no_port_text : string :=
  "Error: Notecard port not specified and none found previously. Please provide the 'notecard' argument or run 'notecard-find-port' first.".

(** The handler of "notecard-list-firmware-versions": the text of its
    reply, or the rejection it lets through (it has no [catch]).  [fetch]
    gives the outcome of fetching an address. *)
Definition list_firmware_versions_tool
    (fetch : string -> fetch_outcome) (updateChannel notecardModel : string)
    : promise string :=
  match getNotecardTypeFromModel (Some notecardModel) with
  | None => Resolved (unknown_model_text (Some notecardModel))
  | Some notecardType =>
      match listAvailableFirmwareVersions (fetch (firmwareIndexUrl updateChannel))
              updateChannel notecardType with
      | Resolved versions =>
          Resolved ("Available firmware versions for " ++ updateChannel ++ ": "
                    ++ join ", " versions)
      | Rejected message => Rejected message
      end
  end.

(** What the handler of "notecard-update-firmware" does: it replies with a
    text, or it goes on to download [firmwareUrl] and sideload it on
    [portToUse] (the download and the sideload themselves are not
    modelled). *)
Inductive update_step : Type :=
  | Reply (text : string)
  | Download (portToUse firmwareUrl : string).

(** The handler of "notecard-update-firmware" up to the download.
    [discoveredNotecardPort] is the module variable of that name. *)
Definition update_firmware_tool
    (fetch : string -> fetch_outcome) (discoveredNotecardPort : option string)
    (notecard updateVersion inputCurrentVersion updateChannel notecardModel : option string)
    : update_step :=
  let portToUse := or_else notecard discoveredNotecardPort in
  let versionToUse := or_default updateVersion "latest" in
  let currentVersion := or_else inputCurrentVersion None in
  let updateChannelToUse := or_default updateChannel "LTS" in
  if negb (existsb (String.eqb updateChannelToUse) validTypes) then
    Reply ("Error: Invalid update type. Must be one of: " ++ join ", " validTypes ++ ".")
  else
    match getNotecardTypeFromModel notecardModel with
    | None => Reply (unknown_model_text notecardModel)
    | Some notecardType =>
        match portToUse with
        | Some port =>
            if negb (truthy portToUse) then Reply no_port_text
            else
              match findFirmwareUrl (fetch (firmwareIndexUrl updateChannelToUse))
                      updateChannelToUse notecardType versionToUse currentVersion with
              | Resolved None =>
                  Reply ("Firmware is already up to date (Current: "
                         ++ show_or "null" currentVersion ++ ", Latest for "
                         ++ updateChannelToUse ++ "/" ++ notecardType ++ ": "
                         ++ versionToUse ++ " determined during check).")
              | Resolved (Some firmwareUrl) => Download port firmwareUrl
              | Rejected message =>
                  Reply ("Error preparing update: "
                         ++ or_default (Some message) "Unknown error")
              end
        | None => Reply no_port_text
        end
    end.

(** ** The port of the Notecard (index.ts, "notecard-find-port") *)

(** [c.toLowerCase()] on the letters A to Z.  (Other characters are left
    as they are; none of them lowercases to a character of ['30a4'].) *)
Definition lower_char (c : ascii) : ascii :=
  let n := nat_of_ascii c in
  if (65 <=? n)%nat && (n <=? 90)%nat then ascii_of_nat (n + 32) else c.

Fixpoint toLowerCase (s : string) : string :=
  match s with
  | EmptyString => EmptyString
  | String c s' => String (lower_char c) (toLowerCase s')
  end.

(** An entry of [SerialPort.list()]. *)
Record port_info : Type := mkPort {
  path : string;
  vendorId : option string
}.

Definition notecardVID : string := "30a4".

(** [port.vendorId && port.vendorId.toLowerCase() === notecardVID]. *)
Definition is_notecard_port (port : port_info) : bool :=
  match vendorId port with
  | Some v => truthy (Some v) && String.eqb (toLowerCase v) notecardVID
  | None => false
  end.

(** The [try] block of the handler of "notecard-find-port": the new value
    of [discoveredNotecardPort] and the text of the reply.  [listed] is
    the outcome of [SerialPort.list()]: the ports, or the [message] of the
    error thrown. *)
Definition scan_ports (listed : option string + list port_info) : option string * string :=
  match listed with
  | inl message =>
      (None, "Error scanning for Notecard: " ++ or_default message "Unknown error")
  | inr ports =>
      match filter is_notecard_port ports with
      | [] => (None, "Error: No Notecard found connected via USB serial.")
      | [found] =>
          (Some (path found), "Found and stored Notecard port: " ++ path found)
      | notecardPorts =>
          (None, "Error: Multiple Notecards found ("
                 ++ join ", " (map path notecardPorts)
                 ++ "). Please specify the 'notecard' port argument manually.")
      end
  end.

(** The handler of "notecard-find-port". *)
Definition find_port_tool (port : option string) (listed : option string + list port_info)
    : option string * string :=
  match port with
  | Some p =>
      if truthy port then (Some p, "Using specified Notecard port: " ++ p)
      else scan_ports listed
  | None => scan_ports listed
  end.

(** ** parseTypesString (api.ts) *)

(** White space as [trim] sees it, among the characters of [ascii]. *)
Definition is_space (c : ascii) : bool :=
  let n := nat_of_ascii c in
  ((9 <=? n)%nat && (n <=? 13)%nat) || (n =? 32)%nat || (n =? 160)%nat.

Fixpoint trimStart (s : string) : string :=
  match s with
  | EmptyString => EmptyString
  | String c s' => if is_space c then trimStart s' else s
  end.

Fixpoint trimEnd (s : string) : string :=
  match s with
  | EmptyString => EmptyString
  | String c s' =>
      match trimEnd s' with
      | EmptyString => if is_space c then EmptyString else String c EmptyString
      | t => String c t
      end
  end.

Definition trim (s : string) : string := trimEnd (trimStart s).

Definition knownTypes : list string := ["Cell+WiFi"; "Cell"; "LoRa"; "WiFi"].

(** The [for (const type of knownTypes)] loop: the first known type that
    [remainingString] starts with. *)
Definition first_known_type (remainingString : string) : option string :=
  find (fun type => String.prefix type remainingString) knownTypes.

(** The [while (remainingString.length > 0)] loop.  Every turn that goes
    on removes a known type from the front, so [turns], which starts at
    the length of the string, is never used up. *)
Fixpoint parse_types_loop (turns : nat) (remainingString : string) : list string :=
  match turns with
  | O => []
  | S turns' =>
      if (0 <? String.length remainingString)%nat then
        match first_known_type remainingString with
        | Some type =>
            type :: parse_types_loop turns' (drop (String.length type) remainingString)
        | None => []
        end
      else []
  end.

Definition parseTypesString (typesString : string) : list string :=
  let remainingString := trim typesString in
  parse_types_loop (String.length remainingString) remainingString.

(** ** The list of scraped requests (api.ts, scrapeNotecardApis) *)

Module Api.

Record NotecardApiArgument : Type := mkArgument {
  name : string;
  type : option string;
  description : option string;
  optional : bool;
  validValues : option (list string)
}.

Record NotecardApiDetail : Type := mkDetail {
  request : string;
  types : list string;
  arguments : list NotecardApiArgument
}.

(** [xs.findIndex(f)], with [None] for -1. *)
Fixpoint findIndex {A : Type} (f : A -> bool) (xs : list A) : option nat :=
  match xs with
  | [] => None
  | x :: xs' => if f x then Some 0 else option_map S (findIndex f xs')
  end.

(** The object at index [i] changed in place. *)
Fixpoint update_at {A : Type} (i : nat) (f : A -> A) (xs : list A) : list A :=
  match xs, i with
  | [], _ => []
  | x :: xs', O => f x :: xs'
  | x :: xs', S i' => x :: update_at i' f xs'
  end.

(** The two assignments to [existingEntry]. *)
Definition fill_missing (parsedTypes : list string)
    (argumentsList : list NotecardApiArgument) (existingEntry : NotecardApiDetail)
    : NotecardApiDetail :=
  let withTypes :=
    if (length (types existingEntry) =? 0)%nat && (0 <? length parsedTypes)%nat
    then mkDetail (request existingEntry) parsedTypes (arguments existingEntry)
    else existingEntry in
  if (length (arguments withTypes) =? 0)%nat && (0 <? length argumentsList)%nat
  then mkDetail (request withTypes) (types withTypes) argumentsList
  else withTypes.

(** The merge of one scraped request into [allApiDetailsList]: a new
    request is pushed, a known one only has its empty fields filled. *)
Definition merge_request (allApiDetailsList : list NotecardApiDetail)
    (requestName : string) (parsedTypes : list string)
    (argumentsList : list NotecardApiArgument) : list NotecardApiDetail :=
  match findIndex (fun item => String.eqb (request item) requestName)
          allApiDetailsList with
  | None => allApiDetailsList ++ [mkDetail requestName parsedTypes argumentsList]
  | Some existingIndex =>
      update_at existingIndex (fill_missing parsedTypes argumentsList) allApiDetailsList
  end.

End Api.

(** * Properties *)

(** ** Numbers *)

Section Numbers.

Lemma gt_lt_swap (a b : number) : gt a b = lt b a.
Proof. destruct a, b; reflexivity. Qed.

Lemma gt_irrefl (a : number) : gt a a = false.
Proof. destruct a; simpl; auto using N.ltb_irrefl. Qed.

Lemma lt_irrefl (a : number) : lt a a = false.
Proof. rewrite <- gt_lt_swap. apply gt_irrefl. Qed.

Lemma gt_not_lt (a b : number) : gt a b = true -> lt a b = false.
Proof.
  destruct a, b; simpl; try discriminate; auto.
  rewrite N.ltb_lt, N.ltb_ge. lia.
Qed.

Lemma or_zero_not_NaN (x : option number) : or_zero x <> NaN.
Proof. destruct x as [[| |]|]; discriminate. Qed.

(** On numbers that are not [NaN], [>] and [<] are a strict total order. *)
Lemma order_cases (x y z : number) :
  x <> NaN -> y <> NaN -> z <> NaN ->
  gt x y = false -> gt y z = false ->
  gt x z = false /\
  (lt x z = false -> lt x y = false /\ lt y z = false).
Proof.
  destruct x, y, z; simpl; intros; try congruence; auto;
    repeat match goal with
           | H : (_ <? _)%N = false |- _ => apply N.ltb_ge in H
           end;
    rewrite ?N.ltb_ge; try (split; [lia | intros; split; lia]);
    split; auto; intros; try discriminate.
Qed.

Lemma round_double_not_NaN (n : N) : round_double n <> NaN.
Proof.
  unfold round_double.
  destruct (n <? 2 ^ 53)%N; [discriminate|].
  match goal with |- (if ?c then _ else _) <> _ => destruct c end; discriminate.
Qed.

Lemma Number_digit_run (s : string) : digit_run s = true -> Number s <> NaN.
Proof.
  unfold digit_run, Number. destruct s; simpl; [discriminate|].
  intros H. rewrite H. apply round_double_not_NaN.
Qed.

End Numbers.

(** ** compareVersions is a total preorder *)

Section Compare.

Variables parts1 parts2 : list number.

(** Past the end of both arrays every component is 0. *)
Lemma compare_loop_past_end (todo i : nat) :
  length parts1 <= i -> length parts2 <= i ->
  compare_loop parts1 parts2 i todo = 0%Z.
Proof.
  revert i. induction todo as [|todo IH]; intros i H1 H2; simpl; [reflexivity|].
  rewrite (proj2 (nth_error_None parts1 i) H1).
  rewrite (proj2 (nth_error_None parts2 i) H2).
  simpl. apply IH; lia.
Qed.

(** Running the loop longer than [len] does not change its result. *)
Lemma compare_loop_longer (k todo i : nat) :
  length parts1 <= i + todo -> length parts2 <= i + todo ->
  compare_loop parts1 parts2 i (todo + k) = compare_loop parts1 parts2 i todo.
Proof.
  revert i. induction todo as [|todo IH]; intros i H1 H2.
  - simpl. apply compare_loop_past_end; lia.
  - simpl. destruct (gt _ _); [reflexivity|].
    destruct (lt _ _); [reflexivity|].
    apply IH; lia.
Qed.

Lemma compare_loop_range (todo i : nat) :
  let r := compare_loop parts1 parts2 i todo in
  r = 1%Z \/ r = 0%Z \/ r = (-1)%Z.
Proof.
  revert i. induction todo as [|todo IH]; intros i; simpl; auto.
  destruct (gt _ _); auto. destruct (lt _ _); auto.
Qed.

End Compare.

Lemma compare_loop_swap (parts1 parts2 : list number) (todo i : nat) :
  compare_loop parts1 parts2 i todo = (- compare_loop parts2 parts1 i todo)%Z.
Proof.
  revert i. induction todo as [|todo IH]; intros i; simpl; [reflexivity|].
  rewrite (gt_lt_swap (or_zero (nth_error parts2 i))).
  rewrite <- (gt_lt_swap (or_zero (nth_error parts1 i))).
  destruct (gt (or_zero (nth_error parts1 i)) (or_zero (nth_error parts2 i))) eqn:G.
  - rewrite (gt_not_lt _ _ G). reflexivity.
  - destruct (lt _ _); [reflexivity|]. apply IH.
Qed.

Lemma compare_loop_same (parts : list number) (todo i : nat) :
  compare_loop parts parts i todo = 0%Z.
Proof.
  revert i. induction todo as [|todo IH]; intros i; simpl; [reflexivity|].
  rewrite gt_irrefl, lt_irrefl. apply IH.
Qed.

Lemma compare_loop_trans (a b c : list number) (todo i : nat) :
  (compare_loop a b i todo <= 0)%Z ->
  (compare_loop b c i todo <= 0)%Z ->
  (compare_loop a c i todo <= 0)%Z.
Proof.
  revert i. induction todo as [|todo IH]; intros i; simpl; [lia|].
  pose proof (or_zero_not_NaN (nth_error a i)) as Hx.
  pose proof (or_zero_not_NaN (nth_error b i)) as Hy.
  pose proof (or_zero_not_NaN (nth_error c i)) as Hz.
  destruct (gt (or_zero (nth_error a i)) (or_zero (nth_error b i))) eqn:Gxy; [lia|].
  destruct (gt (or_zero (nth_error b i)) (or_zero (nth_error c i))) eqn:Gyz;
    [intros _; lia|].
  destruct (order_cases _ _ _ Hx Hy Hz Gxy Gyz) as [Gxz Hlt].
  rewrite Gxz.
  destruct (lt (or_zero (nth_error a i)) (or_zero (nth_error c i))) eqn:Lxz;
    [intros; lia|].
  destruct (Hlt eq_refl) as [Lxy Lyz]. rewrite Lxy, Lyz. apply IH.
Qed.

(** [compareVersions] with the loop run to any common bound. *)
Lemma compareVersions_bound (v1 v2 : string) (n : nat) :
  length (split "." v1) <= n -> length (split "." v2) <= n ->
  compareVersions v1 v2 =
  compare_loop (map Number (split "." v1)) (map Number (split "." v2)) 0 n.
Proof.
  intros H1 H2. unfold compareVersions.
  set (p1 := map Number (split "." v1)). set (p2 := map Number (split "." v2)).
  set (len := Nat.max (length p1) (length p2)).
  assert (L1 : length p1 = length (split "." v1)) by apply length_map.
  assert (L2 : length p2 = length (split "." v2)) by apply length_map.
  replace n with (len + (n - len)) by lia.
  symmetry. apply compare_loop_longer; lia.
Qed.

Lemma compareVersions_swap (a b : string) :
  compareVersions a b = (- compareVersions b a)%Z.
Proof.
  unfold compareVersions. rewrite Nat.max_comm. apply compare_loop_swap.
Qed.

Lemma compareVersions_refl (a : string) : compareVersions a a = 0%Z.
Proof. apply compare_loop_same. Qed.

Lemma compareVersions_trans (a b c : string) :
  (compareVersions a b <= 0)%Z -> (compareVersions b c <= 0)%Z ->
  (compareVersions a c <= 0)%Z.
Proof.
  set (n := Nat.max (length (split "." a))
                    (Nat.max (length (split "." b)) (length (split "." c)))).
  rewrite (compareVersions_bound a b n), (compareVersions_bound b c n),
    (compareVersions_bound a c n) by lia.
  apply compare_loop_trans.
Qed.

Lemma compareVersions_range (a b : string) :
  compareVersions a b = 1%Z \/ compareVersions a b = 0%Z \/ compareVersions a b = (-1)%Z.
Proof. apply compare_loop_range. Qed.

(** ** compareVersions against the specification's comparator *)

Lemma compare_loop_tl (a b : list number) (todo i : nat) :
  compare_loop a b (S i) todo = compare_loop (tl a) (tl b) i todo.
Proof.
  revert i. induction todo as [|todo IH]; intros i; simpl; [reflexivity|].
  rewrite IH.
  replace (nth_error (tl a) i) with (nth_error a (S i)) by (destruct a; destruct i; reflexivity).
  replace (nth_error (tl b) i) with (nth_error b (S i)) by (destruct b; destruct i; reflexivity).
  reflexivity.
Qed.

Lemma or_zero_Some (x : number) : x <> NaN -> or_zero (Some x) = x.
Proof. intros H. destruct x; [congruence | reflexivity | reflexivity]. Qed.

Lemma compare_loop_lex (n : nat) : forall a b : list number,
  length a <= n -> length b <= n ->
  Forall (fun x => x <> NaN) a -> Forall (fun x => x <> NaN) b ->
  compare_loop a b 0 n = lex_compare (pad_zeros n a) (pad_zeros n b).
Proof.
  unfold pad_zeros.
  induction n as [|n IH]; intros a b La Lb Fa Fb.
  - destruct a; [|simpl in La; lia]. reflexivity.
  - cbn [compare_loop]. rewrite compare_loop_tl.
    destruct a as [|x a], b as [|y b]; cbn [tl nth_error length Nat.sub app repeat lex_compare];
      try (inversion Fa; subst); try (inversion Fb; subst);
      rewrite ?or_zero_Some by assumption; cbn [or_zero].
    + rewrite (IH [] []) by (simpl; auto; lia). simpl. rewrite Nat.sub_0_r. reflexivity.
    + rewrite (IH [] b) by (simpl in *; auto; lia). simpl. rewrite Nat.sub_0_r. reflexivity.
    + rewrite (IH a []) by (simpl in *; auto; lia). simpl. rewrite Nat.sub_0_r. reflexivity.
    + rewrite (IH a b) by (simpl in *; auto; lia). reflexivity.
Qed.

Lemma well_formed_components (v : string) :
  well_formed_version v = true ->
  Forall (fun x => x <> NaN) (version_components v).
Proof.
  unfold well_formed_version, version_components.
  rewrite forallb_forall. intros H.
  apply Forall_forall. intros x Hx. apply in_map_iff in Hx.
  destruct Hx as [p [<- Hp]]. apply Number_digit_run. auto.
Qed.

Lemma compareVersions_spec (a b : string) :
  well_formed_version a = true -> well_formed_version b = true ->
  compareVersions a b = compare_spec a b.
Proof.
  intros Ha Hb. unfold compareVersions, compare_spec.
  fold (version_components a). fold (version_components b).
  apply compare_loop_lex; auto using well_formed_components; lia.
Qed.

(** C7: for well-formed dotted-numeric Versions [a], [b], [c], the
    comparator is antisymmetric ([compare(a,b) = -compare(b,a)]), reflexive
    ([compare(a,a) = 0]) and transitive on [<=]; it is the left-to-right
    comparison of the component tuples with the shorter one padded by
    zeros, and so ["1.2"] compares equal to ["1.2.0.0"]. *)
Theorem compareVersions_total_order (a b c : string) :
  well_formed_version a = true ->
  well_formed_version b = true ->
  well_formed_version c = true ->
  compareVersions a b = (- compareVersions b a)%Z /\
  compareVersions a a = 0%Z /\
  ((compareVersions a b <= 0)%Z -> (compareVersions b c <= 0)%Z ->
   (compareVersions a c <= 0)%Z) /\
  compareVersions a b = compare_spec a b /\
  compareVersions "1.2" "1.2.0.0" = 0%Z.
Proof.
  intros Ha Hb Hc. repeat split.
  - apply compareVersions_swap.
  - apply compareVersions_refl.
  - apply compareVersions_trans.
  - apply compareVersions_spec; assumption.
Qed.

Lemma compareVersions_total_order_witness :
  compareVersions "1.2" "1.2.0.0" = (- compareVersions "1.2.0.0" "1.2")%Z /\
  compareVersions "1.2" "1.2" = 0%Z /\
  (compareVersions "1.2" "6.2.5.16868" <= 0)%Z /\
  compareVersions "1.2" "1.2.0.0" = compare_spec "1.2" "1.2.0.0".
Proof.
  destruct (compareVersions_total_order "1.2" "1.2.0.0" "6.2.5.16868")
    as [Hswap [Hrefl [Htrans [Hspec _]]]]; try reflexivity.
  repeat split; try assumption.
  apply Htrans; vm_compute; discriminate.
Defined.

(** ** Strings *)

Lemma truthy_Some (s : string) : truthy (Some s) = true <-> s <> EmptyString.
Proof.
  simpl. rewrite negb_true_iff. split.
  - intros H. apply String.eqb_neq. exact H.
  - intros H. apply String.eqb_neq. exact H.
Qed.

(** A key that ends in [.dfu] does not end in [.bin]. *)
Lemma dfu_is_not_bin (key : string) : is_dfu key = true -> is_bin key = false.
Proof.
  unfold is_dfu, is_bin.
  induction key as [|c key IH]; [discriminate|].
  cbn [endsWith]. intros H. apply orb_true_iff in H. apply orb_false_iff.
  destruct H as [H|H].
  - apply String.eqb_eq in H. injection H as -> ->. split; reflexivity.
  - split; [|auto].
    destruct (String.eqb (String c key) ".bin") eqn:E; [|reflexivity].
    apply String.eqb_eq in E. injection E as -> ->. discriminate H.
Qed.

Lemma bin_is_not_empty (key : string) : is_bin key = true -> truthy (Some key) = true.
Proof. destruct key; [discriminate | reflexivity]. Qed.

(** ** The version pattern *)

Lemma versionRegex_at_empty : versionRegex_at EmptyString = None.
Proof. reflexivity. Qed.

Lemma key_version_nonempty (key v : string) :
  key_version key = Some v -> truthy (Some key) = true.
Proof. destruct key; [discriminate | reflexivity]. Qed.

Lemma key_version_truthy (key v : string) :
  key_version key = Some v -> truthy (Some v) = true.
Proof.
  unfold key_version. destruct (versionRegex_match key) as [w|]; [|discriminate].
  destruct (truthy (Some w)) eqn:T; [|discriminate].
  intros [= <-]. exact T.
Qed.

(** ** extractAvailableVersions *)

Section Extract.

Lemma set_add_In (v w : string) (s : list string) :
  In w (set_add v s) <-> In w s \/ w = v.
Proof.
  unfold set_add. destruct (existsb (String.eqb v) s) eqn:E.
  - split; [auto|]. intros [H| ->]; [assumption|].
    apply existsb_exists in E. destruct E as [x [Hx Heq]].
    apply String.eqb_eq in Heq. subst. assumption.
  - rewrite in_app_iff. simpl. intuition.
Qed.

Lemma set_add_NoDup (v : string) (s : list string) :
  NoDup s -> NoDup (set_add v s).
Proof.
  intros H. unfold set_add. destruct (existsb (String.eqb v) s) eqn:E; [assumption|].
  apply NoDup_app; [assumption | repeat constructor; intros [] |].
  intros x Hx [<-|[]].
  assert (existsb (String.eqb v) s = true); [|congruence].
  apply existsb_exists. exists v. split; [assumption | apply String.eqb_refl].
Qed.

Lemma extract_fold_NoDup (keys : list string) : forall acc : list string,
  NoDup acc -> NoDup (fold_left add_key keys acc).
Proof.
  induction keys as [|key keys IH]; intros acc H; simpl; [assumption|].
  apply IH. unfold add_key. destruct (key_version key); auto using set_add_NoDup.
Qed.

Lemma extract_fold_In (keys : list string) : forall (acc : list string) (v : string),
  In v (fold_left add_key keys acc) <->
  In v acc \/ exists key, In key keys /\ key_version key = Some v.
Proof.
  induction keys as [|key keys IH]; intros acc v; simpl.
  - split; [auto|]. intros [H|[key [[] _]]]. assumption.
  - rewrite IH. unfold add_key. split.
    + intros [H|[k [Hk Hv]]]; [|right; exists k; auto].
      destruct (key_version key) as [w|] eqn:E; [|auto].
      apply set_add_In in H. destruct H as [H| ->]; [auto|].
      right. exists key. auto.
    + intros [H|[k [[<-|Hk] Hv]]].
      * left. destruct (key_version key); [apply set_add_In|]; auto.
      * left. rewrite Hv. apply set_add_In. auto.
      * right. exists k. auto.
Qed.

Lemma extractAvailableVersions_NoDup (keys : list string) :
  NoDup (extractAvailableVersions keys).
Proof. apply extract_fold_NoDup. constructor. Qed.

Lemma extractAvailableVersions_In (keys : list string) (v : string) :
  In v (extractAvailableVersions keys) <->
  exists key, In key keys /\ key_version key = Some v.
Proof.
  unfold extractAvailableVersions.
  rewrite extract_fold_In. simpl. intuition.
Qed.

End Extract.

(** The set is keyed by the captured text: two spellings of one number
    stay two entries. *)
Lemma extract_keeps_spellings :
  extractAvailableVersions ["notecard-u5-1.2.3.4.bin"; "notecard-u5-1.2.3.04.bin"]
  = ["1.2.3.4"; "1.2.3.04"].
Proof. reflexivity. Qed.

(** C9 as stated fails when two keys spell one Version differently: both
    spellings are returned, and they have the same components and compare
    equal. *)
Lemma equal_versions_are_both_kept :
  extractAvailableVersions ["notecard-u5-1.2.3.4.bin"; "notecard-u5-1.2.3.04.bin"]
  = ["1.2.3.4"; "1.2.3.04"] /\
  version_components "1.2.3.4" = version_components "1.2.3.04" /\
  compareVersions "1.2.3.4" "1.2.3.04" = 0%Z /\
  ~ no_equal_versions
      (extractAvailableVersions
         ["notecard-u5-1.2.3.4.bin"; "notecard-u5-1.2.3.04.bin"]).
Proof.
  repeat split; try reflexivity.
  intros H. apply (H 0 1 "1.2.3.4" "1.2.3.04"); try reflexivity. discriminate.
Qed.

(** C9 (amended): for every sequence of keys the extracted collection
    holds no version text twice; it holds exactly the version texts some
    key encodes, so two keys encoding the same text (a BIN key and a DFU
    key of one release) contribute one entry. *)
Theorem extract_no_duplicates (keys : list string) :
  NoDup (extractAvailableVersions keys) /\
  (forall v : string,
     In v (extractAvailableVersions keys) <->
     exists key, In key keys /\ key_version key = Some v) /\
  (forall v : string,
     count_occ string_dec (extractAvailableVersions keys) v <= 1) /\
  extractAvailableVersions
    ["notecard-u5-6.2.5.16868.bin"; "notecard-u5-6.2.5.16868.dfu"]
  = ["6.2.5.16868"].
Proof.
  split; [apply extractAvailableVersions_NoDup|].
  split; [apply extractAvailableVersions_In|].
  split; [|reflexivity].
  apply (NoDup_count_occ string_dec). apply extractAvailableVersions_NoDup.
Qed.

(** ** getNotecardTypeFromModel *)

Section Classify.

Variable model : string.

Lemma any_substring_true (subs : list string) :
  any_substring model subs = true <->
  exists sub, In sub subs /\ includes sub model = true.
Proof.
  induction subs as [|s subs IH]; simpl.
  - split; [discriminate | intros [sub [[] _]]].
  - destruct (includes s model) eqn:E.
    + split; [|reflexivity]. intros _. exists s. auto.
    + rewrite IH. split.
      * intros [sub [Hin Hs]]. exists sub. auto.
      * intros [sub [[<-|Hin] Hs]]; [congruence|]. exists sub. auto.
Qed.

Lemma any_substring_false (subs : list string) :
  any_substring model subs = false <->
  forall sub, In sub subs -> includes sub model = false.
Proof.
  induction subs as [|s subs IH]; simpl.
  - split; [intros _ sub [] | reflexivity].
  - destruct (includes s model) eqn:E.
    + split; [discriminate|]. intros H. rewrite <- E. apply H. auto.
    + rewrite IH. split.
      * intros H sub [<-|Hin]; auto.
      * intros H sub Hin. apply H. auto.
Qed.

Lemma entry_misses_pair (key : string) (subs : list string) :
  entry_misses model (key, subs) <-> any_substring model subs = false.
Proof. symmetry. apply any_substring_false. Qed.

(** The outer loop returns the code of the first entry that has a
    substring in the model. *)
Lemma type_loop_Some (entries : list (string * list string)) (code : string) :
  type_loop model entries = Some code <->
  exists pre subs post,
    entries = (pre ++ (code, subs) :: post)%list /\
    (exists sub, In sub subs /\ includes sub model = true) /\
    Forall (entry_misses model) pre.
Proof.
  induction entries as [|[key subs] entries IH]; simpl.
  - split; [discriminate|]. intros [pre [subs [post [H _]]]].
    destruct pre; discriminate H.
  - destruct (any_substring model subs) eqn:E.
    + split.
      * intros [= <-]. exists [], subs, entries.
        split; [reflexivity|]. split; [apply any_substring_true; exact E | constructor].
      * intros [pre [subs' [post [Heq [Hsub Hpre]]]]].
        destruct pre as [|e pre]; simpl in Heq.
        -- injection Heq as -> _ _. reflexivity.
        -- injection Heq as <- _. inversion Hpre as [|? ? Hmiss _]; subst.
           apply entry_misses_pair in Hmiss. congruence.
    + rewrite IH. split.
      * intros [pre [subs' [post [-> [Hsub Hpre]]]]].
        exists ((key, subs) :: pre), subs', post.
        split; [reflexivity|]. split; [assumption|].
        constructor; [apply entry_misses_pair; exact E | assumption].
      * intros [pre [subs' [post [Heq [Hsub Hpre]]]]].
        destruct pre as [|e pre]; simpl in Heq.
        -- injection Heq as <- <- _. apply any_substring_true in Hsub. congruence.
        -- injection Heq as _ ->. inversion Hpre; subst.
           exists pre, subs', post. auto.
Qed.

Lemma type_loop_None (entries : list (string * list string)) :
  type_loop model entries = None <-> Forall (entry_misses model) entries.
Proof.
  induction entries as [|[key subs] entries IH]; simpl.
  - split; [constructor | reflexivity].
  - destruct (any_substring model subs) eqn:E.
    + split; [discriminate|]. intros H. inversion H as [|? ? Hmiss _]; subst.
      apply entry_misses_pair in Hmiss. congruence.
    + rewrite IH. split.
      * intros H. constructor; [apply entry_misses_pair; exact E | assumption].
      * intros H. inversion H; assumption.
Qed.

End Classify.

(** C8: the mapping is scanned in its declared order ([""], ["u5"],
    ["wl"], ["s3"]) and the code returned is that of the first entry one of
    whose substrings occurs anywhere in the model, case-sensitively; the
    answer is NotFound for a null or empty model and when no entry has a
    substring in the model; ["NOTE-NBGL-500"], which holds both ["500"] and
    ["NB"], is always classified [""]. *)
Theorem classify_first_match (model code : string) :
  map fst notecardTypeMap = [""; "u5"; "wl"; "s3"] /\
  getNotecardTypeFromModel None = None /\
  getNotecardTypeFromModel (Some "") = None /\
  (getNotecardTypeFromModel (Some model) = Some code <->
   model <> "" /\
   exists pre subs post,
     notecardTypeMap = (pre ++ (code, subs) :: post)%list /\
     (exists sub, In sub subs /\ includes sub model = true) /\
     Forall (entry_misses model) pre) /\
  (getNotecardTypeFromModel (Some model) = None <->
   model = "" \/ Forall (entry_misses model) notecardTypeMap) /\
  getNotecardTypeFromModel (Some "NOTE-NBGL-500") = Some "" /\
  getNotecardTypeFromModel (Some "NOTE-NBGL") = Some "u5" /\
  getNotecardTypeFromModel (Some "note-nbgl-500x") = Some "" /\
  getNotecardTypeFromModel (Some "note-nbgl") = None.
Proof.
  repeat (split; [reflexivity|]).
  split; [|split; [|repeat split]].
  - unfold getNotecardTypeFromModel.
    destruct (truthy (Some model)) eqn:T; cbn [negb].
    + apply truthy_Some in T. rewrite type_loop_Some. tauto.
    + split; [discriminate|]. intros [H _].
      apply truthy_Some in H. congruence.
  - unfold getNotecardTypeFromModel.
    destruct (truthy (Some model)) eqn:T; cbn [negb].
    + apply truthy_Some in T. rewrite type_loop_None. tauto.
    + split; [|reflexivity]. intros _. left.
      destruct model; [reflexivity | discriminate T].
Qed.

(** ** The selection loop of findFirmwareUrl *)

Lemma select_from_app (v : string) (st : selection) (l1 l2 : list string) :
  select_from v st (l1 ++ l2) = select_from v (select_from v st l1) l2.
Proof. apply fold_left_app. Qed.

Lemma select_keys_snoc (v : string) (pre : list string) (key : string) :
  select_keys v (pre ++ [key]) = select_step v (select_keys v pre) key.
Proof. unfold select_keys. rewrite select_from_app. reflexivity. Qed.

Lemma encoded_snoc (seen : list string) (key w : string) :
  encoded (seen ++ [key]) w <-> encoded seen w \/ key_version key = Some w.
Proof.
  unfold encoded. split.
  - intros [k [Hin Hk]]. apply in_app_iff in Hin.
    destruct Hin as [Hin|[<-|[]]]; [left; exists k|right]; auto.
  - intros [[k [Hin Hk]]|Hk].
    + exists k. split; [apply in_app_iff|]; auto.
    + exists key. split; [apply in_app_iff; simpl|]; auto.
Qed.

Lemma not_latest (v : string) : v <> "latest" -> String.eqb v "latest" = false.
Proof. apply String.eqb_neq. Qed.

Section Latest.

Lemma latest_invariant_initial : latest_invariant [] initial_selection.
Proof.
  split; [|split].
  - intros w [k [[] _]].
  - reflexivity.
  - discriminate.
Qed.

Lemma latest_invariant_weaken (seen : list string) (st : selection) (key : string) :
  latest_invariant seen st ->
  (forall w, key_version key = Some w ->
             (compareVersions w (latestVersion st) <= 0)%Z) ->
  latest_invariant (seen ++ [key]) st.
Proof.
  intros [I1 [I2 I3]] Hkey. split; [|split].
  - intros w Hw. apply encoded_snoc in Hw. destruct Hw; auto.
  - exact I2.
  - intros k Hk. destruct (I3 k Hk) as [Hin Hv].
    split; [apply in_app_iff; auto | exact Hv].
Qed.

Lemma latest_step (seen : list string) (st : selection) (key : string) :
  latest_invariant seen st ->
  latest_invariant (seen ++ [key]) (select_step "latest" st key).
Proof.
  intros Inv. unfold select_step.
  destruct (key_version key) as [kv|] eqn:K;
    [|apply latest_invariant_weaken; [assumption | intros w Hw; congruence]].
  change (String.eqb "latest" "latest") with true. cbv iota.
  destruct (Z.gtb_spec (compareVersions kv (latestVersion st)) 0) as [G|G].
  - (* a strictly greater version: both variables are updated *)
    destruct Inv as [I1 _]. split; [|split]; simpl.
    + intros w Hw. apply encoded_snoc in Hw. destruct Hw as [Hw|Hw].
      * apply (compareVersions_trans w (latestVersion st) kv); [auto|].
        rewrite compareVersions_swap. lia.
      * rewrite K in Hw. injection Hw as <-. rewrite compareVersions_refl. lia.
    + discriminate.
    + intros k [= <-]. split; [apply in_app_iff; simpl; auto|].
      exists kv. split; [assumption | apply compareVersions_refl].
  - destruct (_ && _ && _ && _) eqn:T.
    + (* an equal version: only the key is replaced *)
      repeat (apply andb_true_iff in T; destruct T as [T ?]).
      apply Z.eqb_eq in T.
      destruct Inv as [I1 _]. split; [|split]; simpl.
      * intros w Hw. apply encoded_snoc in Hw. destruct Hw as [Hw|Hw]; [auto|].
        rewrite K in Hw. injection Hw as <-. lia.
      * discriminate.
      * intros k [= <-]. split; [apply in_app_iff; simpl; auto|].
        exists kv. auto.
    + apply latest_invariant_weaken; [assumption|].
      intros w Hw. rewrite K in Hw. injection Hw as <-. exact G.
Qed.

Lemma latest_scan (keys : list string) : forall (seen : list string) (st : selection),
  latest_invariant seen st ->
  latest_invariant (seen ++ keys) (select_from "latest" st keys).
Proof.
  induction keys as [|key keys IH]; intros seen st Inv; simpl.
  - rewrite app_nil_r. assumption.
  - replace (seen ++ key :: keys)%list with ((seen ++ [key]) ++ keys)%list
      by (rewrite <- app_assoc; reflexivity).
    apply IH. apply latest_step. assumption.
Qed.

Lemma latest_select_keys (keys : list string) :
  latest_invariant keys (select_keys "latest" keys).
Proof. apply (latest_scan keys [] initial_selection latest_invariant_initial). Qed.

(** With no key selected the tracked version is still ['0.0.0.0']. *)
Lemma latest_none_sentinel (keys : list string) :
  selectedKey (select_keys "latest" keys) = None ->
  latestVersion (select_keys "latest" keys) = "0.0.0.0".
Proof. apply (latest_select_keys keys). Qed.

Lemma latest_no_versions (keys : list string) :
  (forall key, In key keys -> key_version key = None) ->
  select_keys "latest" keys = initial_selection.
Proof.
  unfold select_keys. generalize initial_selection.
  induction keys as [|key keys IH]; intros st H; simpl; [reflexivity|].
  assert (Hstep : select_step "latest" st key = st).
  { unfold select_step. rewrite (H key) by (simpl; auto). reflexivity. }
  rewrite Hstep. apply IH. intros k Hk. apply H. simpl. auto.
Qed.

End Latest.

Section Specific.

Variable versionToUse : string.
Hypothesis specific : versionToUse <> "latest".

Lemma specific_invariant_initial : specific_invariant versionToUse [] initial_selection.
Proof.
  split.
  - discriminate.
  - intros [k [[] _]].
Qed.

Lemma specific_invariant_weaken (seen : list string) (st : selection) (key : string) :
  specific_invariant versionToUse seen st ->
  key_version key <> Some versionToUse \/ truthy (selectedKey st) = true ->
  specific_invariant versionToUse (seen ++ [key]) st.
Proof.
  intros [I1 I2] Hkey. split.
  - intros k Hk. destruct (I1 k Hk). split; [apply in_app_iff|]; auto.
  - intros Hw. apply encoded_snoc in Hw.
    destruct Hw as [Hw|Hw]; [auto|].
    destruct Hkey as [Hkey|Hkey]; [contradiction|].
    destruct (selectedKey st) as [k|]; [exists k; reflexivity | discriminate].
Qed.

Lemma specific_step (seen : list string) (st : selection) (key : string) :
  specific_invariant versionToUse seen st ->
  specific_invariant versionToUse (seen ++ [key]) (select_step versionToUse st key).
Proof.
  intros Inv. unfold select_step.
  destruct (key_version key) as [kv|] eqn:K;
    [|apply specific_invariant_weaken; [assumption | left; congruence]].
  rewrite (not_latest _ specific).
  destruct (String.eqb kv versionToUse) eqn:E.
  - apply String.eqb_eq in E. subst kv.
    destruct (_ || _ || _) eqn:C.
    + split; simpl.
      * intros k [= <-]. split; [apply in_app_iff; simpl; auto | assumption].
      * intros _. exists key. reflexivity.
    + apply specific_invariant_weaken; [assumption|]. right.
      apply orb_false_iff in C. destruct C as [C _].
      apply orb_false_iff in C. destruct C as [C _].
      apply negb_false_iff in C. exact C.
  - apply specific_invariant_weaken; [assumption|]. left.
    intros Hkv. rewrite K in Hkv. injection Hkv as ->.
    rewrite String.eqb_refl in E. discriminate.
Qed.

Lemma specific_scan (keys : list string) : forall (seen : list string) (st : selection),
  specific_invariant versionToUse seen st ->
  specific_invariant versionToUse (seen ++ keys) (select_from versionToUse st keys).
Proof.
  induction keys as [|key keys IH]; intros seen st Inv; simpl.
  - rewrite app_nil_r. assumption.
  - replace (seen ++ key :: keys)%list with ((seen ++ [key]) ++ keys)%list
      by (rewrite <- app_assoc; reflexivity).
    apply IH. apply specific_step. assumption.
Qed.

Lemma specific_select_keys (keys : list string) :
  specific_invariant versionToUse keys (select_keys versionToUse keys).
Proof. apply (specific_scan keys [] initial_selection specific_invariant_initial). Qed.

(** Keys of other versions leave the selection alone. *)
Lemma specific_no_match (keys : list string) : forall st : selection,
  ~ encoded keys versionToUse ->
  select_from versionToUse st keys = st.
Proof.
  induction keys as [|key keys IH]; intros st H; simpl; [reflexivity|].
  assert (Hstep : select_step versionToUse st key = st).
  { unfold select_step. destruct (key_version key) as [kv|] eqn:K; [|reflexivity].
    rewrite (not_latest _ specific).
    destruct (String.eqb kv versionToUse) eqn:E; [|reflexivity].
    apply String.eqb_eq in E. subst kv.
    exfalso. apply H. exists key. simpl. auto. }
  rewrite Hstep. apply IH.
  intros [k [Hin Hk]]. apply H. exists k. simpl. auto.
Qed.

End Specific.

(** ** findFirmwareUrl and listAvailableFirmwareVersions *)

Lemma length_eqb_0 {A : Type} (l : list A) :
  (length l =? 0)%nat = false <-> l <> [].
Proof.
  destruct l; simpl; split; intros H; congruence.
Qed.

Lemma relevant_nonempty (notecardType : string) (allKeys : list string) :
  relevant notecardType allKeys <> [] -> allKeys <> [].
Proof. intros H ->. apply H. reflexivity. Qed.

(** Once the listing is fetched and keys pass the filter, the function is
    its selection part. *)
Lemma findFirmwareUrl_try_reached
    (fetched : fetch_outcome) (xml updateType notecardType versionToUse : string)
    (currentVersion : option string) :
  fetch_text fetched = inr xml ->
  filtered_keys notecardType xml <> [] ->
  findFirmwareUrl_try fetched updateType notecardType versionToUse currentVersion
  = findFirmwareUrl_select (filtered_keys notecardType xml)
      notecardType versionToUse currentVersion.
Proof.
  intros Hf Hk. unfold findFirmwareUrl_try. rewrite Hf.
  pose proof (relevant_nonempty _ _ Hk) as Ha.
  apply length_eqb_0 in Ha. rewrite Ha.
  unfold filtered_keys in Hk. apply length_eqb_0 in Hk. rewrite Hk.
  reflexivity.
Qed.

(** Without keys for the hardware type the function throws. *)
Lemma findFirmwareUrl_try_no_keys
    (fetched : fetch_outcome) (xml updateType notecardType versionToUse : string)
    (currentVersion : option string) :
  fetch_text fetched = inr xml ->
  filtered_keys notecardType xml = [] ->
  findFirmwareUrl_try fetched updateType notecardType versionToUse currentVersion
  = inl (if (length (extractKeysFromXml xml) =? 0)%nat
         then no_files_message updateType
         else no_files_for_type_message notecardType updateType).
Proof.
  intros Hf Hk. unfold findFirmwareUrl_try. rewrite Hf.
  unfold filtered_keys in Hk. rewrite Hk.
  destruct (length (extractKeysFromXml xml) =? 0)%nat; reflexivity.
Qed.

(** The selection part returns [null] only through the up-to-date test. *)
Lemma findFirmwareUrl_select_null
    (keys : list string) (notecardType versionToUse : string)
    (currentVersion : option string) :
  findFirmwareUrl_select keys notecardType versionToUse currentVersion = inr None <->
  versionToUse = "latest" /\
  exists cur, currentVersion = Some cur /\ cur <> "" /\
    (compareVersions cur (latestVersion (select_keys "latest" keys)) >= 0)%Z.
Proof.
  unfold findFirmwareUrl_select.
  destruct (String.eqb versionToUse "latest") eqn:E.
  - apply String.eqb_eq in E. subst versionToUse.
    destruct currentVersion as [cur|]; cbn [andb truthy negb].
    + destruct (String.eqb cur "") eqn:C; cbn [negb andb].
      * apply String.eqb_eq in C. subst cur.
        destruct (selectedKey _) as [k|]; [destruct (truthy (Some k))|]; simpl;
          (split; [discriminate | intros [_ [c [[= <-] [Hc _]]]]; congruence]).
      * apply String.eqb_neq in C.
        destruct (Z.geb_spec (compareVersions cur (latestVersion (select_keys "latest" keys))) 0)
          as [G|G].
        -- split; [|reflexivity]. intros _. split; [reflexivity|].
           exists cur. repeat split; auto. lia.
        -- destruct (selectedKey _) as [k|]; [destruct (truthy (Some k))|]; simpl;
             (split; [discriminate | intros [_ [c [[= <-] [_ Hc]]]]; lia]).
    + destruct (selectedKey _) as [k|]; [destruct (truthy (Some k))|]; simpl;
        (split; [discriminate | intros [_ [c [[=] _]]]]).
  - apply String.eqb_neq in E. cbn [andb negb].
    destruct (selectedKey _) as [k|]; [destruct (truthy (Some k))|]; simpl;
      (split; [discriminate | intros [H _]; congruence]).
Qed.

(** A specific version some key encodes is resolved to such a key,
    whatever the current version. *)
Lemma findFirmwareUrl_select_specific
    (keys : list string) (notecardType versionToUse : string)
    (currentVersion : option string) :
  versionToUse <> "latest" ->
  encoded keys versionToUse ->
  exists key, In key keys /\ key_version key = Some versionToUse /\
    selectedKey (select_keys versionToUse keys) = Some key /\
    findFirmwareUrl_select keys notecardType versionToUse currentVersion
    = inr (Some (firmware_host ++ key)).
Proof.
  intros Hv He.
  destruct (specific_select_keys versionToUse Hv keys) as [I1 I2].
  destruct (I2 He) as [key Hkey]. destruct (I1 key Hkey) as [Hin Hkv].
  exists key. repeat split; try assumption.
  unfold findFirmwareUrl_select. rewrite (not_latest _ Hv), Hkey.
  rewrite (key_version_nonempty _ _ Hkv). reflexivity.
Qed.

(** ** The "latest" tie between two formats *)

(** On a tie the "latest" branch replaces the key only when the selected
    key ends in [.dfu] and the new key does not end in [.bin]: a BIN key
    never takes the place of the key selected before it. *)
Lemma latest_tie_ignores_bin (st : selection) (key kv : string) :
  key_version key = Some kv ->
  (compareVersions kv (latestVersion st) <= 0)%Z ->
  is_bin key = true ->
  select_step "latest" st key = st.
Proof.
  intros K G B. unfold select_step. rewrite K.
  change (String.eqb "latest" "latest") with true. cbv iota.
  destruct (Z.gtb_spec (compareVersions kv (latestVersion st)) 0) as [G'|_]; [lia|].
  unfold is_bin in B. rewrite B. cbn [negb].
  rewrite andb_false_r. reflexivity.
Qed.

(** C1 (evaluation of the code): with the DFU key listed before the BIN
    key of the same version 6.2.5.16868, a "latest" request resolves to the
    URL of the DFU key; the BIN key is selected only when it is listed
    first. *)
Theorem latest_tie_keeps_listing_order :
  filtered_keys "u5" scenario_listing = [dfu_key; bin_key] /\
  map key_version [dfu_key; bin_key] = [Some "6.2.5.16868"; Some "6.2.5.16868"] /\
  is_dfu dfu_key = true /\ is_bin bin_key = true /\
  findFirmwareUrl (fetched_ok scenario_listing) "LTS" "u5" "latest" None
  = Resolved (Some "https://notecard-firmware.s3.amazonaws.com/LTS/notecard-u5-6.2.5.16868.dfu") /\
  findFirmwareUrl (fetched_ok scenario_listing_bin_first) "LTS" "u5" "latest" None
  = Resolved (Some "https://notecard-firmware.s3.amazonaws.com/LTS/notecard-u5-6.2.5.16868.bin").
Proof. repeat split; vm_compute; reflexivity. Qed.

(** ** Up to date *)


(** ** The scan for a specific version *)

(** C3: in the scan for a specific version, a key in BIN format encoding
    that version replaces a DFU key selected before it, and a key in DFU
    format encoding that version never replaces a BIN key selected before
    it. *)
Theorem specific_tie_break_asymmetric
    (versionToUse : string) (scanned : list string) (dfu bin : string) :
  versionToUse <> "latest" ->
  key_version dfu = Some versionToUse -> is_dfu dfu = true ->
  key_version bin = Some versionToUse -> is_bin bin = true ->
  (selectedKey (select_keys versionToUse scanned) = Some dfu ->
   selectedKey (select_keys versionToUse (scanned ++ [bin])) = Some bin) /\
  (selectedKey (select_keys versionToUse scanned) = Some bin ->
   selectedKey (select_keys versionToUse (scanned ++ [dfu])) = Some bin).
Proof.
  intros Hv Kd Fd Kb Fb.
  split; intros Hsel; rewrite select_keys_snoc; unfold select_step.
  - rewrite Kb, (not_latest _ Hv), String.eqb_refl.
    unfold is_bin in Fb. rewrite Fb, !orb_true_r. reflexivity.
  - rewrite Kd, (not_latest _ Hv), String.eqb_refl, Hsel.
    rewrite (bin_is_not_empty _ Fb).
    pose proof (dfu_is_not_bin _ Fd) as Nb. unfold is_bin in Nb. rewrite Nb.
    rewrite andb_false_r. cbn [negb orb]. exact Hsel.
Qed.

Lemma specific_tie_break_asymmetric_witness :
  selectedKey (select_keys "6.2.5.16868" ([dfu_key] ++ [bin_key])) = Some bin_key /\
  selectedKey (select_keys "6.2.5.16868" ([bin_key] ++ [dfu_key])) = Some bin_key.
Proof.
  split.
  - apply (specific_tie_break_asymmetric "6.2.5.16868" [dfu_key] dfu_key bin_key);
      try reflexivity; discriminate.
  - apply (specific_tie_break_asymmetric "6.2.5.16868" [bin_key] dfu_key bin_key);
      try reflexivity; discriminate.
Defined.

(** ** The "latest" scan picks a maximal version *)

Lemma scenario_filtered_keys :
  filtered_keys "u5" scenario_listing = [dfu_key; bin_key].
Proof. vm_compute. reflexivity. Qed.

Lemma compareVersions_ge_of_le (v w : string) :
  (compareVersions w v <= 0)%Z -> (compareVersions v w >= 0)%Z.
Proof. rewrite (compareVersions_swap v w). lia. Qed.

(** C4 (evaluation of the code): on a listing whose only filtered key
    carries Version 0.0.0.0, that Version is extracted and listed, and a
    request for it by name resolves to the key, but the "latest" scan
    selects no key, so not the maximum, and the request is rejected with
    "Could not find any valid firmware versions" followed by the available
    version 0.0.0.0. *)
Lemma zero_version_is_not_selected :
  encoded (filtered_keys "u5" zero_listing) "0.0.0.0" /\
  ~ selects_maximum (filtered_keys "u5" zero_listing) /\
  findFirmwareUrl (fetched_ok zero_listing) "LTS" "u5" "latest" None
  = Rejected "Could not find firmware: Could not find any valid firmware versions for Notecard type 'u5'. Available: 0.0.0.0" /\
  listAvailableFirmwareVersions (fetched_ok zero_listing) "LTS" "u5"
  = Resolved ["0.0.0.0"] /\
  findFirmwareUrl (fetched_ok zero_listing) "LTS" "u5" "0.0.0.0" None
  = Resolved (Some "https://notecard-firmware.s3.amazonaws.com/LTS/notecard-u5-0.0.0.0.bin").
Proof.
  split; [|split; [|repeat split; vm_compute; reflexivity]].
  - exists "LTS/notecard-u5-0.0.0.0.bin". split; vm_compute; auto.
  - intros [key [v [Hsel _]]]. vm_compute in Hsel. discriminate Hsel.
Qed.

(** X20: when some filtered key encodes a Version that compares greater
    than 0.0.0.0, the "latest" scan selects a filtered key whose Version
    compares [>=] to every Version the filtered keys encode, and the
    request resolves to the URL of that key unless it is answered
    UpToDate. *)
Theorem latest_selects_maximum
    (fetched : fetch_outcome) (xml updateType notecardType : string)
    (currentVersion : option string) :
  fetch_text fetched = inr xml ->
  (exists w, encoded (filtered_keys notecardType xml) w /\
             (compareVersions w "0.0.0.0" > 0)%Z) ->
  exists key v,
    selectedKey (select_keys "latest" (filtered_keys notecardType xml)) = Some key /\
    In key (filtered_keys notecardType xml) /\
    key_version key = Some v /\
    (forall w, encoded (filtered_keys notecardType xml) w ->
               (compareVersions v w >= 0)%Z) /\
    (findFirmwareUrl fetched updateType notecardType "latest" currentVersion
     = Resolved (Some (firmware_host ++ key)) \/
     findFirmwareUrl fetched updateType notecardType "latest" currentVersion
     = Resolved None) /\
    (currentVersion = None ->
     findFirmwareUrl fetched updateType notecardType "latest" currentVersion
     = Resolved (Some (firmware_host ++ key))).
Proof.
  intros F [w0 [Hw0 Hpos]].
  set (keys := filtered_keys notecardType xml) in *.
  destruct (latest_select_keys keys) as [I1 [I2 I3]].
  destruct (selectedKey (select_keys "latest" keys)) as [key|] eqn:Hsel.
  - destruct (I3 key eq_refl) as [Hin [v [Hkv Heq]]].
    assert (K : keys <> []) by (intros E; rewrite E in Hin; exact Hin).
    assert (R : findFirmwareUrl_select keys notecardType "latest" currentVersion
                = inr (Some (firmware_host ++ key)) \/
                findFirmwareUrl_select keys notecardType "latest" currentVersion
                = inr None).
    { unfold findFirmwareUrl_select. rewrite Hsel, (key_version_nonempty _ _ Hkv).
      destruct (_ && _ && _); auto. }
    exists key, v. repeat split; try assumption.
    + intros w Hw. apply compareVersions_ge_of_le.
      apply (compareVersions_trans w (latestVersion (select_keys "latest" keys)) v);
        [auto|].
      rewrite compareVersions_swap. lia.
    + unfold findFirmwareUrl.
      rewrite (findFirmwareUrl_try_reached _ xml) by assumption.
      fold keys. destruct R as [-> | ->]; auto.
    + intros ->. unfold findFirmwareUrl.
      rewrite (findFirmwareUrl_try_reached _ xml) by assumption.
      fold keys. unfold findFirmwareUrl_select. rewrite Hsel, (key_version_nonempty _ _ Hkv).
      reflexivity.
  - exfalso. specialize (I1 w0 Hw0). rewrite (I2 eq_refl) in I1. lia.
Qed.

Lemma three_versions_filtered_keys :
  filtered_keys "u5" three_versions_listing
  = ["LTS/notecard-u5-6.2.5.16868.bin"; newest_key; "LTS/notecard-u5-6.2.5.9.bin"].
Proof. vm_compute. reflexivity. Qed.

Lemma latest_selects_maximum_witness :
  findFirmwareUrl (fetched_ok three_versions_listing) "LTS" "u5" "latest" None
  = Resolved (Some (firmware_host ++ newest_key)).
Proof.
  assert (Enc : encoded (filtered_keys "u5" three_versions_listing) "7.5.2.17004").
  { rewrite three_versions_filtered_keys. exists newest_key.
    split; [right; left; reflexivity | vm_compute; reflexivity]. }
  destruct (latest_selects_maximum (fetched_ok three_versions_listing)
              three_versions_listing "LTS" "u5" None)
    as [key [v [_ [Hin [Hkv [Hmax [_ Hres]]]]]]].
  - reflexivity.
  - exists "7.5.2.17004". split; [exact Enc | vm_compute; reflexivity].
  - rewrite (Hres eq_refl). specialize (Hmax "7.5.2.17004" Enc).
    rewrite three_versions_filtered_keys in Hin.
    destruct Hin as [<-|[<-|[<-|[]]]]; [exfalso | reflexivity | exfalso];
      vm_compute in Hkv; injection Hkv as <-; vm_compute in Hmax;
      apply Hmax; reflexivity.
Defined.

(** ** No key for the hardware type *)

(** C5: when no key is left after the hardware-type filter, listing the
    versions succeeds with the empty sequence, while resolving is rejected
    with a message and returns neither a URL nor UpToDate; the message is
    the one for the hardware type whenever the listing had keys at all. *)
Theorem empty_filter_list_vs_resolve
    (fetched : fetch_outcome) (xml updateType notecardType versionToUse : string)
    (currentVersion : option string) :
  fetch_text fetched = inr xml ->
  filtered_keys notecardType xml = [] ->
  listAvailableFirmwareVersions fetched updateType notecardType = Resolved [] /\
  exists message,
    findFirmwareUrl fetched updateType notecardType versionToUse currentVersion
    = Rejected ("Could not find firmware: " ++ message) /\
    (extractKeysFromXml xml <> [] ->
     message = "No firmware files found for Notecard type '" ++ notecardType
               ++ "' with prefix '" ++ updateType ++ "'.").
Proof.
  intros F K. split.
  - unfold listAvailableFirmwareVersions. rewrite F.
    unfold filtered_keys in K. rewrite K.
    destruct (length (extractKeysFromXml xml) =? 0)%nat; reflexivity.
  - unfold findFirmwareUrl.
    rewrite (findFirmwareUrl_try_no_keys _ xml) by assumption.
    eexists. split; [reflexivity|].
    intros Ha. apply length_eqb_0 in Ha. rewrite Ha. reflexivity.
Qed.

Lemma empty_filter_list_vs_resolve_witness :
  listAvailableFirmwareVersions (fetched_ok scenario_listing) "LTS" "s3" = Resolved [] /\
  exists message,
    findFirmwareUrl (fetched_ok scenario_listing) "LTS" "s3" "latest" None
    = Rejected ("Could not find firmware: " ++ message) /\
    (extractKeysFromXml scenario_listing <> [] ->
     message = "No firmware files found for Notecard type '" ++ "s3"
               ++ "' with prefix '" ++ "LTS" ++ "'.").
Proof.
  apply (empty_filter_list_vs_resolve (fetched_ok scenario_listing) scenario_listing
           "LTS" "s3" "latest" None); reflexivity.
Defined.

(** ** A requested version that no key carries *)

Lemma join_truthy (sep : string) (xs : list string) :
  xs <> [] -> (forall x, In x xs -> truthy (Some x) = true) ->
  truthy (Some (join sep xs)) = true.
Proof.
  destruct xs as [|x xs]; [congruence|]. intros _ H.
  specialize (H x (or_introl eq_refl)).
  destruct x as [|c x]; [discriminate H|].
  unfold join. simpl. destruct xs; reflexivity.
Qed.

Lemma available_or_none_listing (keys : list string) :
  available_or_none (extractAvailableVersions keys) =
  match extractAvailableVersions keys with
  | [] => "None"
  | _ :: _ => join ", " (extractAvailableVersions keys)
  end.
Proof.
  unfold available_or_none.
  destruct (extractAvailableVersions keys) as [|v vs] eqn:E; [reflexivity|].
  rewrite join_truthy; [reflexivity | discriminate |].
  intros x Hx. rewrite <- E in Hx. apply extractAvailableVersions_In in Hx.
  destruct Hx as [key [_ Hk]]. apply (key_version_truthy key). exact Hk.
Qed.

(** C6: a request for a specific version that no filtered key encodes is
    rejected, no URL is returned, and the message lists the Versions the
    filtered keys encode (each once, joined by [", "]; ["None"] when there
    is none). *)
Theorem version_not_found_lists_available
    (fetched : fetch_outcome) (xml updateType notecardType versionToUse : string)
    (currentVersion : option string) :
  fetch_text fetched = inr xml ->
  filtered_keys notecardType xml <> [] ->
  versionToUse <> "latest" ->
  ~ encoded (filtered_keys notecardType xml) versionToUse ->
  findFirmwareUrl fetched updateType notecardType versionToUse currentVersion
  = Rejected
      ("Could not find firmware: " ++
       "Firmware version '" ++ versionToUse ++ "' not found for Notecard type '"
       ++ notecardType ++ "'. Available: "
       ++ match extractAvailableVersions (filtered_keys notecardType xml) with
          | [] => "None"
          | _ :: _ => join ", " (extractAvailableVersions (filtered_keys notecardType xml))
          end) /\
  NoDup (extractAvailableVersions (filtered_keys notecardType xml)) /\
  (forall v,
     In v (extractAvailableVersions (filtered_keys notecardType xml)) <->
     encoded (filtered_keys notecardType xml) v).
Proof.
  intros F K Hv Hno.
  split; [|split; [apply extractAvailableVersions_NoDup
                  | intros v; apply extractAvailableVersions_In]].
  unfold findFirmwareUrl.
  rewrite (findFirmwareUrl_try_reached _ xml) by assumption.
  unfold findFirmwareUrl_select, select_keys.
  rewrite (specific_no_match _ Hv _ _ Hno).
  rewrite (not_latest _ Hv). cbn [andb negb initial_selection selectedKey truthy].
  unfold version_not_found_message. rewrite available_or_none_listing.
  reflexivity.
Qed.

Lemma version_not_found_lists_available_witness :
  findFirmwareUrl (fetched_ok scenario_listing) "LTS" "u5" "9.9.9.9" (Some "6.2.5.9")
  = Rejected "Could not find firmware: Firmware version '9.9.9.9' not found for Notecard type 'u5'. Available: 6.2.5.16868".
Proof.
  destruct (version_not_found_lists_available (fetched_ok scenario_listing)
              scenario_listing "LTS" "u5" "9.9.9.9" (Some "6.2.5.9")) as [H _].
  - reflexivity.
  - rewrite scenario_filtered_keys. discriminate.
  - discriminate.
  - rewrite scenario_filtered_keys. intros [key [Hin Hk]].
    destruct Hin as [<-|[<-|[]]]; vm_compute in Hk; discriminate Hk.
  - rewrite H. vm_compute. reflexivity.
Defined.

(** ** "latest" with a current version and no usable key *)

Lemma compare_loop_zeros (parts1 parts2 : list number) (todo i : nat) :
  (forall j, or_zero (nth_error parts2 j) = Fin 0) ->
  (compare_loop parts1 parts2 i todo >= 0)%Z.
Proof.
  intros Hz. revert i. induction todo as [|todo IH]; intros i; simpl; [lia|].
  rewrite Hz.
  destruct (gt _ _); [lia|].
  destruct (or_zero (nth_error parts1 i)) as [|n|]; simpl; try apply IH.
  destruct (n <? 0)%N eqn:E; [apply N.ltb_lt in E; lia | apply IH].
Qed.

(** Every well-formed version compares [>=] to the initial ['0.0.0.0'].
    (Text with a sign is read by [Number] as a negative number; it is not
    a version and lies outside the digit runs [JS.Number] models.) *)
Lemma compareVersions_zero (cur : string) :
  well_formed_version cur = true ->
  (compareVersions cur "0.0.0.0" >= 0)%Z.
Proof.
  intros _. unfold compareVersions. apply compare_loop_zeros.
  intros j. do 4 (destruct j as [|j]; [reflexivity|]). destruct j; reflexivity.
Qed.

Lemma well_formed_truthy (v : string) :
  well_formed_version v = true -> truthy (Some v) = true.
Proof. destruct v; [discriminate | reflexivity]. Qed.

(** C10 as stated fails for a current version that is present but not a
    version: with the empty text the up-to-date test does not apply, and
    the listing without versions is rejected. *)
Lemma empty_current_version_is_rejected :
  filtered_keys "u5" unversioned_listing = ["LTS/notecard-u5-readme.txt"] /\
  key_version "LTS/notecard-u5-readme.txt" = None /\
  Some "" <> @None string /\
  findFirmwareUrl (fetched_ok unversioned_listing) "LTS" "u5" "latest" (Some "")
  = Rejected "Could not find firmware: Could not find any valid firmware versions for Notecard type 'u5'.".
Proof.
  repeat split; try (vm_compute; reflexivity). discriminate.
Qed.

(** C10 (amended): with "latest" requested and a well-formed current version, a
    listing that has filtered keys none of which encodes a Version is
    answered UpToDate: the tracked version is still ['0.0.0.0'], the
    current version compares [>=] to it, and the up-to-date test comes
    first.  More generally the request is answered UpToDate whenever the
    scan selected no key, so the "no valid versions" failure is not
    reached; without a current version the same listing is rejected. *)
Theorem no_valid_versions_unreachable
    (fetched : fetch_outcome) (xml updateType notecardType cur : string) :
  fetch_text fetched = inr xml ->
  filtered_keys notecardType xml <> [] ->
  well_formed_version cur = true ->
  ((forall key, In key (filtered_keys notecardType xml) -> key_version key = None) ->
   latestVersion (select_keys "latest" (filtered_keys notecardType xml)) = "0.0.0.0" /\
   findFirmwareUrl fetched updateType notecardType "latest" (Some cur) = Resolved None /\
   findFirmwareUrl fetched updateType notecardType "latest" None
   = Rejected ("Could not find firmware: "
               ++ "Could not find any valid firmware versions for Notecard type '"
               ++ notecardType ++ "'.")) /\
  (compareVersions cur "0.0.0.0" >= 0)%Z /\
  (selectedKey (select_keys "latest" (filtered_keys notecardType xml)) = None ->
   findFirmwareUrl fetched updateType notecardType "latest" (Some cur) = Resolved None).
Proof.
  intros F K W.
  assert (Up : selectedKey (select_keys "latest" (filtered_keys notecardType xml)) = None ->
               findFirmwareUrl fetched updateType notecardType "latest" (Some cur)
               = Resolved None).
  { intros Hsel. unfold findFirmwareUrl.
    rewrite (findFirmwareUrl_try_reached _ xml) by assumption.
    unfold findFirmwareUrl_select.
    rewrite (latest_none_sentinel _ Hsel), (well_formed_truthy _ W).
    change (String.eqb "latest" "latest") with true. cbn [andb].
    pose proof (compareVersions_zero cur W) as G.
    destruct (Z.geb_spec (compareVersions cur "0.0.0.0") 0); [reflexivity | lia]. }
  split; [|split; [apply compareVersions_zero; exact W | exact Up]].
  intros Hnone. pose proof (latest_no_versions _ Hnone) as Hst.
  split; [rewrite Hst; reflexivity|].
  split; [apply Up; rewrite Hst; reflexivity|].
  unfold findFirmwareUrl.
  rewrite (findFirmwareUrl_try_reached _ xml) by assumption.
  unfold findFirmwareUrl_select. rewrite Hst.
  change (String.eqb "latest" "latest") with true.
  cbn [andb negb truthy initial_selection selectedKey].
  assert (E : extractAvailableVersions (filtered_keys notecardType xml) = []).
  { destruct (extractAvailableVersions (filtered_keys notecardType xml)) as [|v vs] eqn:E;
      [reflexivity|].
    assert (Hin : In v (extractAvailableVersions (filtered_keys notecardType xml)))
      by (rewrite E; left; reflexivity).
    apply extractAvailableVersions_In in Hin. destruct Hin as [key [Hin Hk]].
    rewrite (Hnone key Hin) in Hk. discriminate Hk. }
  unfold no_valid_versions_message. rewrite E. cbn [length Nat.ltb Nat.leb].
  reflexivity.
Qed.

Lemma unversioned_filtered_keys :
  filtered_keys "u5" unversioned_listing = ["LTS/notecard-u5-readme.txt"].
Proof. vm_compute. reflexivity. Qed.

Lemma no_valid_versions_unreachable_witness :
  latestVersion (select_keys "latest" (filtered_keys "u5" unversioned_listing)) = "0.0.0.0" /\
  findFirmwareUrl (fetched_ok unversioned_listing) "LTS" "u5" "latest" (Some "6.2.5.16868")
  = Resolved None /\
  (compareVersions "6.2.5.16868" "0.0.0.0" >= 0)%Z.
Proof.
  destruct (no_valid_versions_unreachable (fetched_ok unversioned_listing)
              unversioned_listing "LTS" "u5" "6.2.5.16868") as [H [G _]].
  - reflexivity.
  - rewrite unversioned_filtered_keys. discriminate.
  - reflexivity.
  - destruct H as [H1 [H2 _]].
    + rewrite unversioned_filtered_keys. intros key [<-|[]]. vm_compute. reflexivity.
    + auto.
Defined.

(** * Further properties of the code *)

(** ** Prefixes and occurrences *)

Lemma prefix_String (a b : ascii) (p s : string) :
  String.prefix (String a p) (String b s) =
  if ascii_dec a b then String.prefix p s else false.
Proof. reflexivity. Qed.

Lemma prefix_nil (s : string) : String.prefix EmptyString s = true.
Proof. destruct s; reflexivity. Qed.

Lemma prefix_append (p r : string) : String.prefix p (p ++ r) = true.
Proof.
  induction p as [|c p IH]; [apply prefix_nil|].
  cbn [append]. rewrite prefix_String.
  destruct (ascii_dec c c); [exact IH | congruence].
Qed.

Lemma prefix_drop (p : string) : forall s : string,
  String.prefix p s = true -> s = p ++ drop (String.length p) s.
Proof.
  induction p as [|c p IH]; intros s H; [reflexivity|].
  destruct s as [|b s]; [discriminate H|].
  rewrite prefix_String in H. destruct (ascii_dec c b); [|discriminate H].
  subst b. cbn [append String.length drop]. f_equal. apply IH. exact H.
Qed.

Lemma prefix_app_same (p q s : string) :
  String.prefix (p ++ q) (p ++ s) = String.prefix q s.
Proof.
  induction p as [|c p IH]; [reflexivity|].
  cbn [append]. rewrite prefix_String.
  destruct (ascii_dec c c); [exact IH | congruence].
Qed.

Lemma prefix_extend (p : string) : forall k r : string,
  String.prefix p k = true -> String.prefix p (k ++ r) = true.
Proof.
  induction p as [|c p IH]; intros k r H; [apply prefix_nil|].
  destruct k as [|b k]; [discriminate H|].
  cbn [append]. rewrite prefix_String in *.
  destruct (ascii_dec c b); [auto | discriminate H].
Qed.

Lemma append_assoc (a b c : string) : (a ++ b) ++ c = a ++ b ++ c.
Proof. induction a as [|x a IH]; [reflexivity|]. cbn [append]. f_equal. exact IH. Qed.

(** Appends are compared after moving every bracket to the right. *)
Ltac append_normal :=
  repeat (progress (rewrite ?append_assoc; cbn [append])).

Lemma length_append (a b : string) :
  String.length (a ++ b) = String.length a + String.length b.
Proof.
  induction a as [|x a IH]; [reflexivity|].
  cbn [append String.length]. rewrite IH. reflexivity.
Qed.

Lemma drop_append (a r : string) : drop (String.length a) (a ++ r) = r.
Proof. induction a as [|x a IH]; [destruct r; reflexivity | exact IH]. Qed.

Lemma includes_nil (p : string) : includes p EmptyString = String.prefix p EmptyString.
Proof. cbn [includes]. apply orb_false_r. Qed.

Lemma includes_cons (p : string) (c : ascii) (s : string) :
  includes p (String c s) = String.prefix p (String c s) || includes p s.
Proof. reflexivity. Qed.

Lemma includes_prefix (p s : string) : String.prefix p s = true -> includes p s = true.
Proof. intros H. destruct s; cbn [includes]; rewrite H; reflexivity. Qed.

Lemma includes_app_l (p a s : string) :
  includes p s = true -> includes p (a ++ s) = true.
Proof.
  intros H. induction a as [|c a IH]; [exact H|].
  cbn [append]. rewrite includes_cons, IH. apply orb_true_r.
Qed.

(** [includes] is occurrence as a substring. *)
Lemma includes_occurs (p s : string) :
  includes p s = true <-> exists a b, s = a ++ p ++ b.
Proof.
  split.
  - induction s as [|c s IH].
    + rewrite includes_nil. intros H. exists EmptyString, EmptyString.
      apply prefix_drop in H. destruct p; [reflexivity | discriminate H].
    + rewrite includes_cons. intros H. apply orb_true_iff in H. destruct H as [H|H].
      * exists EmptyString, (drop (String.length p) (String c s)).
        apply prefix_drop. exact H.
      * destruct (IH H) as [a [b ->]]. exists (String c a), b. reflexivity.
  - intros [a [b ->]]. apply includes_app_l. apply includes_prefix. apply prefix_append.
Qed.

(** ** extractKeysFromXml *)

Lemma keys_from_cons (skip : nat) (c : ascii) (s : string) :
  keys_from skip (String c s) =
  match skip with
  | S n => keys_from n s
  | O =>
      if String.prefix "<Key>" (String c s) then
        match key_body (drop 5 (String c s)) with
        | Some k => k :: keys_from (4 + String.length k + 6) s
        | None => keys_from 0 s
        end
      else keys_from 0 s
  end.
Proof. reflexivity. Qed.

Lemma key_body_eq (s : string) :
  key_body s =
  if String.prefix "</Key>" s then Some EmptyString
  else match s with
       | EmptyString => None
       | String c s' =>
           if is_line_terminator c then None
           else option_map (String c) (key_body s')
       end.
Proof. destruct s; reflexivity. Qed.

(** Without an opening marker there is no key. *)
Lemma keys_from_no_marker (s : string) : forall skip : nat,
  includes "<Key>" s = false -> keys_from skip s = [].
Proof.
  induction s as [|c s IH]; intros skip H; [reflexivity|].
  rewrite includes_cons in H. apply orb_false_iff in H. destruct H as [Hp Hi].
  rewrite keys_from_cons. destruct skip; [|auto]. rewrite Hp. auto.
Qed.

(** What [key_body] returns is followed by the closing marker, stays on
    one line and is the shortest such text. *)
Lemma key_body_sound (t : string) : forall k : string,
  key_body t = Some k ->
  String.prefix (k ++ "</Key>") t = true /\ extracted_key k.
Proof.
  unfold extracted_key.
  induction t as [|c t IH]; intros k H; rewrite key_body_eq in H.
  - discriminate H.
  - destruct (String.prefix "</Key>" (String c t)) eqn:P.
    + injection H as <-. split; [exact P | split; reflexivity].
    + destruct (is_line_terminator c) eqn:L; [discriminate H|].
      destruct (key_body t) as [k'|] eqn:B; [|discriminate H].
      injection H as <-. destruct (IH k' eq_refl) as [Hp [Hl Hi]].
      repeat split.
      * cbn [append]. rewrite prefix_String.
        destruct (ascii_dec c c); [exact Hp | congruence].
      * cbn [all_chars]. rewrite L, Hl. reflexivity.
      * rewrite includes_cons, Hi, orb_false_r.
        destruct (String.prefix "</Key>" (String c k')) eqn:Q; [|reflexivity].
        assert (E : String c t = (String c k' ++ "</Key>")
                                 ++ drop (String.length (String c k' ++ "</Key>")) (String c t)).
        { apply prefix_drop. cbn [append]. rewrite prefix_String.
          destruct (ascii_dec c c); [exact Hp | congruence]. }
        rewrite append_assoc in E. rewrite E in P.
        rewrite (prefix_extend _ _ _ Q) in P. discriminate P.
Qed.

Lemma keys_from_sound (s : string) : forall (skip : nat) (k : string),
  In k (keys_from skip s) ->
  includes ("<Key>" ++ k ++ "</Key>") s = true /\ extracted_key k.
Proof.
  induction s as [|c s IH]; intros skip k H; [destruct H|].
  rewrite keys_from_cons in H.
  assert (Rec : forall n, In k (keys_from n s) ->
                includes ("<Key>" ++ k ++ "</Key>") (String c s) = true /\ extracted_key k).
  { intros n Hn. destruct (IH n k Hn) as [Hi Hc]. split; [|exact Hc].
    rewrite includes_cons, Hi. apply orb_true_r. }
  destruct skip; [|eauto].
  destruct (String.prefix "<Key>" (String c s)) eqn:P; [|eauto].
  destruct (key_body (drop 5 (String c s))) as [k0|] eqn:B; [|eauto].
  destruct H as [<-|H]; [|eauto].
  destruct (key_body_sound _ _ B) as [Hp Hc]. split; [|exact Hc].
  apply includes_prefix.
  rewrite (prefix_drop "<Key>" (String c s) P).
  change (String.length "<Key>") with 5.
  rewrite (prefix_app_same "<Key>"). exact Hp.
Qed.

(** On a plain key the body of the pattern stops at the first closing
    marker. *)
Lemma key_body_plain (k rest : string) :
  plain_key k = true -> key_body (k ++ "</Key>" ++ rest) = Some k.
Proof.
  unfold plain_key. induction k as [|c k IH]; intros H.
  - change (EmptyString ++ "</Key>" ++ rest) with ("</Key>" ++ rest).
    rewrite key_body_eq, prefix_append. reflexivity.
  - cbn [all_chars] in H. apply andb_true_iff in H. destruct H as [Hc Hk].
    apply andb_true_iff in Hc. destruct Hc as [Hlt Hnl].
    apply negb_true_iff in Hlt, Hnl.
    cbn [append]. rewrite key_body_eq, prefix_String.
    destruct (ascii_dec "<" c) as [E|_].
    + subst c. discriminate Hlt.
    + cbv beta iota. cbn [append] in IH. rewrite Hnl, (IH Hk). reflexivity.
Qed.

Lemma keys_from_skip (a r : string) :
  keys_from (String.length a) (a ++ r) = keys_from 0 r.
Proof. induction a as [|c a IH]; [reflexivity | exact IH]. Qed.

(** An opening marker cannot begin inside text that has none and end
    inside the marker that follows it. *)
Lemma no_straddle (c : ascii) (p t : string) :
  String.prefix "<Key>" (String c p) = false ->
  String.prefix "<Key>" (String c p ++ "<Key>" ++ t) = false.
Proof.
  destruct p as [|c2 [|c3 [|c4 [|c5 p]]]]; cbn [append]; rewrite !prefix_String;
    repeat match goal with
           | |- context [ascii_dec ?a ?b] => destruct (ascii_dec a b)
           end;
    try reflexivity; try discriminate; try congruence;
    intros H; subst; try discriminate H; try reflexivity.
  rewrite prefix_nil in H. discriminate H.
Qed.

Lemma keys_from_leading (pre t : string) :
  includes "<Key>" pre = false ->
  keys_from 0 (pre ++ "<Key>" ++ t) = keys_from 0 ("<Key>" ++ t).
Proof.
  induction pre as [|c pre IH]; intros H; [reflexivity|].
  rewrite includes_cons in H. apply orb_false_iff in H. destruct H as [Hp Hi].
  pose proof (no_straddle c pre t Hp) as Hs.
  cbn [append] in *. rewrite keys_from_cons, Hs. auto.
Qed.

Lemma scenario_keys : extractKeysFromXml scenario_listing = [dfu_key; bin_key].
Proof. vm_compute. reflexivity. Qed.

(** X1: every key that [extractKeysFromXml] returns stands in the payload
    between an opening and a closing marker, holds no line break and does
    not contain the closing marker. *)
Theorem extracted_keys_occur (xmlString k : string) :
  In k (extractKeysFromXml xmlString) ->
  includes ("<Key>" ++ k ++ "</Key>") xmlString = true /\ extracted_key k.
Proof. apply keys_from_sound. Qed.

Lemma extracted_keys_occur_witness :
  includes ("<Key>" ++ dfu_key ++ "</Key>") scenario_listing = true /\
  extracted_key dfu_key.
Proof.
  apply (extracted_keys_occur scenario_listing dfu_key).
  rewrite scenario_keys. left. reflexivity.
Defined.

(** X2: a payload in which the opening marker or the closing marker does
    not occur yields the empty list of keys. *)
Theorem no_marker_no_keys (xmlString : string) :
  includes "<Key>" xmlString = false \/ includes "</Key>" xmlString = false ->
  extractKeysFromXml xmlString = [].
Proof.
  intros H. destruct (extractKeysFromXml xmlString) as [|k ks] eqn:E; [reflexivity|].
  exfalso.
  assert (Hin : In k (extractKeysFromXml xmlString)) by (rewrite E; left; reflexivity).
  apply keys_from_sound in Hin. destruct Hin as [Hi _].
  apply includes_occurs in Hi. destruct Hi as [a [b Hx]].
  destruct H as [H|H].
  - assert (T : includes "<Key>" xmlString = true); [|congruence].
    apply includes_occurs. exists a, (k ++ "</Key>" ++ b).
    rewrite Hx, !append_assoc. reflexivity.
  - assert (T : includes "</Key>" xmlString = true); [|congruence].
    apply includes_occurs. exists (a ++ "<Key>" ++ k), b.
    rewrite Hx, !append_assoc. reflexivity.
Qed.

Lemma no_marker_no_keys_witness :
  extractKeysFromXml "<ListBucketResult><Name>notecard-firmware</Name></ListBucketResult>" = [].
Proof.
  apply no_marker_no_keys. left. vm_compute. reflexivity.
Defined.

(** X3: parsing goes key by key.  When the text before the first opening
    marker has none, and the key between the markers is a plain key, the
    payload yields that key followed by the keys of the text after the
    closing marker. *)
Theorem extractKeys_first_key (pre k rest : string) :
  includes "<Key>" pre = false ->
  plain_key k = true ->
  extractKeysFromXml (pre ++ "<Key>" ++ k ++ "</Key>" ++ rest)
  = k :: extractKeysFromXml rest.
Proof.
  intros Hpre Hk. unfold extractKeysFromXml.
  rewrite keys_from_leading by exact Hpre.
  change ("<Key>" ++ k ++ "</Key>" ++ rest)
    with (String "<" ("Key>" ++ k ++ "</Key>" ++ rest)).
  rewrite keys_from_cons.
  change (String "<" ("Key>" ++ k ++ "</Key>" ++ rest))
    with ("<Key>" ++ k ++ "</Key>" ++ rest).
  rewrite prefix_append.
  change (drop 5 ("<Key>" ++ k ++ "</Key>" ++ rest))
    with (drop (String.length "<Key>") ("<Key>" ++ k ++ "</Key>" ++ rest)).
  rewrite drop_append.
  rewrite (key_body_plain k rest Hk). f_equal.
  replace (4 + String.length k + 6) with (String.length ("Key>" ++ k ++ "</Key>"))
    by (rewrite !length_append; reflexivity).
  rewrite <- (keys_from_skip ("Key>" ++ k ++ "</Key>") rest).
  rewrite !append_assoc. reflexivity.
Qed.

Lemma extractKeys_first_key_witness :
  extractKeysFromXml
    ("<ListBucketResult><Contents>" ++ "<Key>" ++ dfu_key ++ "</Key>"
       ++ "</Contents><Contents><Key>LTS/readme.txt</Key></Contents></ListBucketResult>")
  = dfu_key :: extractKeysFromXml
      "</Contents><Contents><Key>LTS/readme.txt</Key></Contents></ListBucketResult>".
Proof.
  apply (extractKeys_first_key "<ListBucketResult><Contents>" dfu_key);
    vm_compute; reflexivity.
Defined.

(** ** The version pattern, read both ways *)

Lemma lit_sound (p s r : string) : lit p s = Some r -> s = p ++ r.
Proof.
  unfold lit. destruct (String.prefix p s) eqn:P; [|discriminate].
  intros [= <-]. apply prefix_drop. exact P.
Qed.

Lemma lit_append (p r : string) : lit p (p ++ r) = Some r.
Proof. unfold lit. rewrite prefix_append, drop_append. reflexivity. Qed.

Lemma digits_prefix_sound (s : string) : forall d r : string,
  digits_prefix s = (d, r) -> s = d ++ r /\ all_digits d = true.
Proof.
  induction s as [|c s IH]; intros d r H; cbn [digits_prefix] in H.
  - injection H as <- <-. split; reflexivity.
  - destruct (is_digit c) eqn:D.
    + destruct (digits_prefix s) as [d' r'] eqn:E. injection H as <- <-.
      destruct (IH d' r' eq_refl) as [-> Hd]. split; [reflexivity|].
      cbn [all_digits]. rewrite D, Hd. reflexivity.
    + injection H as <- <-. split; reflexivity.
Qed.

Lemma digits1_sound (s d r : string) :
  digits1 s = Some (d, r) -> s = d ++ r /\ digit_run d = true.
Proof.
  unfold digits1. destruct (digits_prefix s) as [d' r'] eqn:E.
  destruct (digits_prefix_sound _ _ _ E) as [Hs Hd].
  destruct d' as [|c d']; [discriminate|].
  intros [= <- <-]. split; [exact Hs|]. unfold digit_run. rewrite Hd. reflexivity.
Qed.

(** The longest run of digits before a character that is not a digit. *)
Lemma digits_prefix_run (d : string) (c : ascii) (r : string) :
  all_digits d = true -> is_digit c = false ->
  digits_prefix (d ++ String c r) = (d, String c r).
Proof.
  intros Hd Hc. induction d as [|x d IH]; cbn [append digits_prefix].
  - rewrite Hc. reflexivity.
  - cbn [all_digits] in Hd. apply andb_true_iff in Hd. destruct Hd as [Hx Hd].
    rewrite Hx, (IH Hd). reflexivity.
Qed.

Lemma digits1_run (d r : string) :
  digit_run d = true -> digits1 (d ++ "." ++ r) = Some (d, "." ++ r).
Proof.
  unfold digit_run, digits1. intros H. apply andb_true_iff in H. destruct H as [Hn Hd].
  change ("." ++ r) with (String "." r).
  rewrite (digits_prefix_run d "." r Hd eq_refl).
  destruct d; [discriminate Hn | reflexivity].
Qed.

Lemma digit_is_not_dot (c : ascii) : is_digit c = true -> Ascii.eqb c "." = false.
Proof.
  intros H. destruct (Ascii.eqb_spec c "."); [|reflexivity].
  subst c. discriminate H.
Qed.

Lemma split_digits (d : string) : all_digits d = true -> split "." d = [d].
Proof.
  induction d as [|c d IH]; intros H; [reflexivity|].
  cbn [all_digits] in H. apply andb_true_iff in H. destruct H as [Hc Hd].
  cbn [split]. rewrite (digit_is_not_dot c Hc), (IH Hd). reflexivity.
Qed.

Lemma split_digits_dot (d rest : string) :
  all_digits d = true -> split "." (d ++ "." ++ rest) = d :: split "." rest.
Proof.
  induction d as [|c d IH]; intros H; [reflexivity|].
  cbn [all_digits] in H. apply andb_true_iff in H. destruct H as [Hc Hd].
  cbn [append split]. rewrite (digit_is_not_dot c Hc).
  cbn [append] in IH. rewrite (IH Hd). reflexivity.
Qed.

Lemma digit_run_digits (d : string) : digit_run d = true -> all_digits d = true.
Proof. unfold digit_run. intros H. apply andb_true_iff in H. apply H. Qed.

Lemma four_parts (a b c d : string) :
  digit_run a = true -> digit_run b = true -> digit_run c = true -> digit_run d = true ->
  split "." (a ++ "." ++ b ++ "." ++ c ++ "." ++ d) = [a; b; c; d].
Proof.
  intros Ha Hb Hc Hd.
  rewrite !split_digits_dot, split_digits by (apply digit_run_digits; assumption).
  reflexivity.
Qed.

(** What the pattern captures at the head of a text. *)
Lemma versionRegex_at_sound (s v : string) :
  versionRegex_at s = Some v ->
  exists a b c d r,
    digit_run a = true /\ digit_run b = true /\ digit_run c = true /\ digit_run d = true /\
    v = a ++ "." ++ b ++ "." ++ c ++ "." ++ d /\
    s = "-" ++ v ++ "." ++ r /\
    (String.prefix "bin" r = true \/ String.prefix "dfu" r = true).
Proof.
  unfold versionRegex_at, bind. intros H.
  destruct (lit "-" s) as [r0|] eqn:L0; [|discriminate H].
  destruct (digits1 r0) as [[a r1]|] eqn:D1; [|discriminate H].
  destruct (lit "." r1) as [r2|] eqn:L1; [|discriminate H].
  destruct (digits1 r2) as [[b r3]|] eqn:D2; [|discriminate H].
  destruct (lit "." r3) as [r4|] eqn:L2; [|discriminate H].
  destruct (digits1 r4) as [[c r5]|] eqn:D3; [|discriminate H].
  destruct (lit "." r5) as [r6|] eqn:L3; [|discriminate H].
  destruct (digits1 r6) as [[d r7]|] eqn:D4; [|discriminate H].
  destruct (lit "." r7) as [r8|] eqn:L4; [|discriminate H].
  destruct (String.prefix "bin" r8 || String.prefix "dfu" r8) eqn:S; [|discriminate H].
  injection H as <-.
  apply lit_sound in L0, L1, L2, L3, L4.
  apply digits1_sound in D1, D2, D3, D4.
  destruct D1 as [E1 Ha], D2 as [E2 Hb], D3 as [E3 Hc], D4 as [E4 Hd].
  exists a, b, c, d, r8. repeat (split; [assumption|]).
  split; [reflexivity|]. split; [|apply orb_true_iff; exact S].
  subst. append_normal. reflexivity.
Qed.

Lemma versionRegex_at_complete (a b c d r : string) :
  digit_run a = true -> digit_run b = true -> digit_run c = true -> digit_run d = true ->
  String.prefix "bin" r = true \/ String.prefix "dfu" r = true ->
  versionRegex_at ("-" ++ (a ++ "." ++ b ++ "." ++ c ++ "." ++ d) ++ "." ++ r)
  = Some (a ++ "." ++ b ++ "." ++ c ++ "." ++ d).
Proof.
  intros Ha Hb Hc Hd Hr. unfold versionRegex_at, bind.
  rewrite !append_assoc.
  rewrite lit_append, (digits1_run a) by assumption.
  rewrite lit_append, (digits1_run b) by assumption.
  rewrite lit_append, (digits1_run c) by assumption.
  rewrite lit_append, (digits1_run d) by assumption.
  rewrite lit_append.
  apply orb_true_iff in Hr. rewrite Hr. reflexivity.
Qed.

Lemma versionRegex_match_eq (key : string) :
  versionRegex_match key =
  match versionRegex_at key with
  | Some v => Some v
  | None =>
      match key with
      | EmptyString => None
      | String _ key' => versionRegex_match key'
      end
  end.
Proof. destruct key; reflexivity. Qed.

Lemma versionRegex_match_sound (key : string) : forall v : string,
  versionRegex_match key = Some v ->
  exists pre s, key = pre ++ s /\ versionRegex_at s = Some v.
Proof.
  induction key as [|c key IH]; intros v H; rewrite versionRegex_match_eq in H.
  - destruct (versionRegex_at "") eqn:E; [|discriminate H].
    exists EmptyString, EmptyString. split; [reflexivity | congruence].
  - destruct (versionRegex_at (String c key)) as [w|] eqn:E.
    + exists EmptyString, (String c key). split; [reflexivity | congruence].
    + destruct (IH v H) as [pre [s [-> Hs]]].
      exists (String c pre), s. split; [reflexivity | exact Hs].
Qed.

(** A match further on is found unless an earlier one is. *)
Lemma versionRegex_match_later (pre s v : string) :
  versionRegex_at s = Some v ->
  exists w, versionRegex_match (pre ++ s) = Some w.
Proof.
  intros Hs. induction pre as [|c pre IH].
  - exists v. cbn [append]. rewrite versionRegex_match_eq, Hs. reflexivity.
  - cbn [append]. rewrite versionRegex_match_eq.
    destruct (versionRegex_at (String c (pre ++ s))) as [w|]; [exists w; reflexivity|].
    exact IH.
Qed.

Lemma versionRegex_match_first (pre s v : string) :
  all_chars (fun c => negb (Ascii.eqb c "-")) pre = true ->
  versionRegex_at s = Some v ->
  versionRegex_match (pre ++ s) = Some v.
Proof.
  intros Hpre Hs. induction pre as [|c pre IH].
  - cbn [append]. rewrite versionRegex_match_eq, Hs. reflexivity.
  - cbn [all_chars] in Hpre. apply andb_true_iff in Hpre. destruct Hpre as [Hc Hpre].
    apply negb_true_iff in Hc.
    cbn [append]. rewrite versionRegex_match_eq.
    assert (E : versionRegex_at (String c (pre ++ s)) = None).
    { unfold versionRegex_at, bind, lit. rewrite prefix_String.
      destruct (ascii_dec "-" c) as [<-|_]; [discriminate Hc | reflexivity]. }
    rewrite E. apply IH. exact Hpre.
Qed.

Lemma key_version_match (key v : string) :
  key_version key = Some v <-> versionRegex_match key = Some v.
Proof.
  unfold key_version. split.
  - destruct (versionRegex_match key) as [w|]; [|discriminate].
    destruct (truthy (Some w)); [auto | discriminate].
  - intros H. rewrite H.
    destruct (versionRegex_match_sound key v H) as [pre [s [_ Hs]]].
    destruct (versionRegex_at_sound s v Hs) as [a [b [c [d [r [Ha [_ [_ [_ [-> _]]]]]]]]]].
    destruct a; [discriminate Ha | reflexivity].
Qed.

(** The shape of a Version read from a key. *)
Lemma key_version_sound (key v : string) :
  key_version key = Some v ->
  well_formed_version v = true /\
  length (split "." v) = 4 /\
  (includes ("-" ++ v ++ ".bin") key = true \/
   includes ("-" ++ v ++ ".dfu") key = true).
Proof.
  intros H. apply key_version_match in H.
  destruct (versionRegex_match_sound key v H) as [pre [s [-> Hs]]].
  destruct (versionRegex_at_sound s v Hs)
    as [a [b [c [d [r [Ha [Hb [Hc [Hd [-> [-> Hr]]]]]]]]]]].
  unfold well_formed_version. rewrite (four_parts a b c d) by assumption.
  split; [cbn [forallb]; rewrite Ha, Hb, Hc, Hd; reflexivity|].
  split; [reflexivity|].
  set (v := a ++ "." ++ b ++ "." ++ c ++ "." ++ d).
  destruct Hr as [Hr|Hr]; [left|right]; apply includes_occurs.
  - exists pre, (drop 3 r). rewrite (prefix_drop "bin" r Hr) at 1.
    rewrite !append_assoc. reflexivity.
  - exists pre, (drop 3 r). rewrite (prefix_drop "dfu" r Hr) at 1.
    rewrite !append_assoc. reflexivity.
Qed.

(** X4: a Version read from a key is well formed, has exactly four
    components, and stands in the key after a dash and before [.bin] or
    [.dfu]. *)
Theorem key_version_shape (key v : string) :
  key_version key = Some v ->
  well_formed_version v = true /\
  length (split "." v) = 4 /\
  (includes ("-" ++ v ++ ".bin") key = true \/
   includes ("-" ++ v ++ ".dfu") key = true).
Proof. apply key_version_sound. Qed.

Lemma key_version_shape_witness :
  well_formed_version "6.2.5.16868" = true /\
  length (split "." "6.2.5.16868") = 4 /\
  (includes ("-" ++ "6.2.5.16868" ++ ".bin") bin_key = true \/
   includes ("-" ++ "6.2.5.16868" ++ ".dfu") bin_key = true).
Proof.
  apply (key_version_shape bin_key "6.2.5.16868"). vm_compute. reflexivity.
Defined.

(** X5: a key in which a dash is followed by four dot-separated runs of
    digits and then [.bin] or [.dfu] always yields a Version; it yields
    that very Version when no dash comes before. *)
Theorem key_version_found (pre a b c d rest : string) :
  digit_run a = true -> digit_run b = true -> digit_run c = true -> digit_run d = true ->
  String.prefix "bin" rest = true \/ String.prefix "dfu" rest = true ->
  (exists w,
     key_version (pre ++ "-" ++ (a ++ "." ++ b ++ "." ++ c ++ "." ++ d) ++ "." ++ rest)
     = Some w) /\
  (all_chars (fun x => negb (Ascii.eqb x "-")) pre = true ->
   key_version (pre ++ "-" ++ (a ++ "." ++ b ++ "." ++ c ++ "." ++ d) ++ "." ++ rest)
   = Some (a ++ "." ++ b ++ "." ++ c ++ "." ++ d)).
Proof.
  intros Ha Hb Hc Hd Hr.
  pose proof (versionRegex_at_complete a b c d rest Ha Hb Hc Hd Hr) as Hat.
  split.
  - destruct (versionRegex_match_later pre _ _ Hat) as [w Hw].
    exists w. apply key_version_match. exact Hw.
  - intros Hpre. apply key_version_match.
    apply versionRegex_match_first; assumption.
Qed.

Lemma key_version_found_witness :
  (exists w,
     key_version ("LTS/notecard" ++ "-"
                  ++ ("6" ++ "." ++ "2" ++ "." ++ "5" ++ "." ++ "16868") ++ "." ++ "dfu")
     = Some w) /\
  key_version ("LTS/notecard" ++ "-"
               ++ ("6" ++ "." ++ "2" ++ "." ++ "5" ++ "." ++ "16868") ++ "." ++ "dfu")
  = Some ("6" ++ "." ++ "2" ++ "." ++ "5" ++ "." ++ "16868").
Proof.
  destruct (key_version_found "LTS/notecard" "6" "2" "5" "16868" "dfu")
    as [H1 H2]; try reflexivity.
  - right. reflexivity.
  - split; [exact H1 | apply H2; reflexivity].
Defined.

(** ** listAvailableFirmwareVersions, end to end *)

Lemma filtered_keys_In (notecardType xml key : string) :
  In key (filtered_keys notecardType xml) <->
  In key (extractKeysFromXml xml) /\ includes ("-" ++ notecardType ++ "-") key = true.
Proof. unfold filtered_keys, relevant. apply filter_In. Qed.

Lemma listAvailable_ok (fetched : fetch_outcome) (xml updateType notecardType : string) :
  fetch_text fetched = inr xml ->
  listAvailableFirmwareVersions fetched updateType notecardType
  = Resolved (extractAvailableVersions (filtered_keys notecardType xml)).
Proof.
  intros F. unfold listAvailableFirmwareVersions, filtered_keys. rewrite F.
  destruct (extractKeysFromXml xml) as [|k ks] eqn:E; [reflexivity|].
  cbn [length Nat.eqb].
  destruct (relevant notecardType (k :: ks)) as [|r rs] eqn:R; reflexivity.
Qed.

(** X6: listing the versions is rejected exactly when the fetch fails,
    with the message of the fetch behind a fixed prefix; otherwise it
    resolves to a list without repetition that holds exactly the Versions
    read from the listed keys containing [-<notecardType>-]. *)
Theorem listed_versions_exact
    (fetched : fetch_outcome) (updateType notecardType : string) :
  (forall message,
     fetch_text fetched = inl message ->
     listAvailableFirmwareVersions fetched updateType notecardType
     = Rejected ("Could not list firmware versions: " ++ message)) /\
  (forall xml,
     fetch_text fetched = inr xml ->
     exists versions,
       listAvailableFirmwareVersions fetched updateType notecardType = Resolved versions /\
       NoDup versions /\
       forall v, In v versions <->
                 exists key, In key (extractKeysFromXml xml) /\
                             includes ("-" ++ notecardType ++ "-") key = true /\
                             key_version key = Some v).
Proof.
  split.
  - intros message F. unfold listAvailableFirmwareVersions. rewrite F. reflexivity.
  - intros xml F. exists (extractAvailableVersions (filtered_keys notecardType xml)).
    split; [apply listAvailable_ok; exact F|].
    split; [apply extractAvailableVersions_NoDup|].
    intros v. rewrite extractAvailableVersions_In. split.
    + intros [key [Hin Hk]]. apply filtered_keys_In in Hin.
      exists key. tauto.
    + intros [key [Hin [Hi Hk]]]. exists key. split; [|exact Hk].
      apply filtered_keys_In. auto.
Qed.

(** ** What findFirmwareUrl returns and what it never throws *)

(** The key the selection loop ends with is a key of the list that carries
    a Version, the requested one when a specific version is asked for. *)
Lemma selected_key_sound (versionToUse : string) (keys : list string) (key : string) :
  selectedKey (select_keys versionToUse keys) = Some key ->
  In key keys /\
  exists kv, key_version key = Some kv /\ (versionToUse <> "latest" -> kv = versionToUse).
Proof.
  intros Hsel. destruct (String.eqb_spec versionToUse "latest") as [->|Hv].
  - destruct (latest_select_keys keys) as [_ [_ I3]].
    destruct (I3 key Hsel) as [Hin [v [Hkv _]]].
    split; [exact Hin|]. exists v. split; [exact Hkv | congruence].
  - destruct (specific_select_keys versionToUse Hv keys) as [I1 _].
    destruct (I1 key Hsel) as [Hin Hkv].
    split; [exact Hin|]. exists versionToUse. auto.
Qed.

(** The results of the selection part, by the key the loop ends with. *)
Lemma findFirmwareUrl_select_cases
    (keys : list string) (notecardType versionToUse : string)
    (currentVersion : option string) :
  let r := findFirmwareUrl_select keys notecardType versionToUse currentVersion in
  r = inr None \/
  (exists key, selectedKey (select_keys versionToUse keys) = Some key /\
               r = inr (Some (firmware_host ++ key))) \/
  r = inl (version_not_found_message versionToUse notecardType
             (extractAvailableVersions keys)) \/
  r = inl (no_valid_versions_message notecardType (extractAvailableVersions keys)).
Proof.
  cbv zeta. unfold findFirmwareUrl_select.
  destruct (_ && _ && _); [auto|].
  destruct (selectedKey (select_keys versionToUse keys)) as [key|] eqn:Hsel.
  - destruct (selected_key_sound _ _ _ Hsel) as [_ [kv [Hkv _]]].
    rewrite (key_version_nonempty _ _ Hkv). cbn [negb]. rewrite !andb_false_r.
    right. left. exists key. auto.
  - cbn [truthy negb]. rewrite !andb_true_r.
    destruct (String.eqb versionToUse "latest"); cbn [negb]; auto.
Qed.

(** A URL returned is the host followed by a filtered key that carries a
    Version. *)
Lemma findFirmwareUrl_url_sound
    (fetched : fetch_outcome) (updateType notecardType versionToUse : string)
    (currentVersion : option string) (firmwareUrl : string) :
  findFirmwareUrl fetched updateType notecardType versionToUse currentVersion
  = Resolved (Some firmwareUrl) ->
  exists xml key kv,
    fetch_text fetched = inr xml /\
    In key (extractKeysFromXml xml) /\
    includes ("-" ++ notecardType ++ "-") key = true /\
    key_version key = Some kv /\
    (versionToUse <> "latest" -> kv = versionToUse) /\
    firmwareUrl = "https://notecard-firmware.s3.amazonaws.com/" ++ key.
Proof.
  unfold findFirmwareUrl, findFirmwareUrl_try. intros H.
  destruct (fetch_text fetched) as [m|xml] eqn:F; [discriminate H|].
  destruct (length (extractKeysFromXml xml) =? 0)%nat; [discriminate H|].
  destruct (length (relevant notecardType (extractKeysFromXml xml)) =? 0)%nat;
    [discriminate H|].
  fold (filtered_keys notecardType xml) in H.
  destruct (findFirmwareUrl_select_cases (filtered_keys notecardType xml)
              notecardType versionToUse currentVersion)
    as [R|[[key [Hsel R]]|[R|R]]]; cbv zeta in R; rewrite R in H; try discriminate H.
  injection H as <-.
  destruct (selected_key_sound _ _ _ Hsel) as [Hin [kv [Hkv Hreq]]].
  apply filtered_keys_In in Hin. destruct Hin as [Hin Htok].
  exists xml, key, kv. repeat split; assumption.
Qed.

(** X7: a URL that [findFirmwareUrl] returns is the firmware host followed
    by a key of the fetched listing that contains [-<notecardType>-] and
    carries a Version, which is the requested one when a specific version
    was asked for. *)
Theorem resolved_url_is_listed_key
    (fetched : fetch_outcome) (updateType notecardType versionToUse : string)
    (currentVersion : option string) (firmwareUrl : string) :
  findFirmwareUrl fetched updateType notecardType versionToUse currentVersion
  = Resolved (Some firmwareUrl) ->
  exists xml key kv,
    fetch_text fetched = inr xml /\
    In key (extractKeysFromXml xml) /\
    includes ("-" ++ notecardType ++ "-") key = true /\
    key_version key = Some kv /\
    (versionToUse <> "latest" -> kv = versionToUse) /\
    firmwareUrl = "https://notecard-firmware.s3.amazonaws.com/" ++ key.
Proof. apply findFirmwareUrl_url_sound. Qed.

Lemma resolved_url_is_listed_key_witness :
  exists xml key kv,
    fetch_text (fetched_ok scenario_listing) = inr xml /\
    In key (extractKeysFromXml xml) /\
    includes ("-" ++ "u5" ++ "-") key = true /\
    key_version key = Some kv /\
    ("6.2.5.16868" <> "latest" -> kv = "6.2.5.16868") /\
    "https://notecard-firmware.s3.amazonaws.com/LTS/notecard-u5-6.2.5.16868.bin"
    = "https://notecard-firmware.s3.amazonaws.com/" ++ key.
Proof.
  apply (resolved_url_is_listed_key (fetched_ok scenario_listing) "LTS" "u5"
           "6.2.5.16868" (Some "6.2.5.9")).
  vm_compute. reflexivity.
Defined.

(** X8: once the listing is fetched, [findFirmwareUrl] never throws the
    error of its last [else] branch ("Could not determine appropriate
    firmware key after filtering."): the checks before it leave no case
    for it. *)
Theorem failsafe_is_never_thrown
    (fetched : fetch_outcome) (xml updateType notecardType versionToUse : string)
    (currentVersion : option string) :
  fetch_text fetched = inr xml ->
  findFirmwareUrl fetched updateType notecardType versionToUse currentVersion
  <> Rejected ("Could not find firmware: "
               ++ "Could not determine appropriate firmware key after filtering.").
Proof.
  intros F. unfold findFirmwareUrl, findFirmwareUrl_try. rewrite F.
  destruct (length (extractKeysFromXml xml) =? 0)%nat; [discriminate|].
  destruct (length (relevant notecardType (extractKeysFromXml xml)) =? 0)%nat;
    [discriminate|].
  destruct (findFirmwareUrl_select_cases (relevant notecardType (extractKeysFromXml xml))
              notecardType versionToUse currentVersion)
    as [R|[[key [Hsel R]]|[R|R]]]; cbv zeta in R; rewrite R; discriminate.
Qed.

Lemma failsafe_is_never_thrown_witness :
  findFirmwareUrl (fetched_ok unversioned_listing) "LTS" "u5" "latest" None
  <> Rejected ("Could not find firmware: "
               ++ "Could not determine appropriate firmware key after filtering.")
  /\ fetch_text (fetched_ok unversioned_listing) = inr unversioned_listing.
Proof.
  split; [|reflexivity].
  apply (failsafe_is_never_thrown (fetched_ok unversioned_listing) unversioned_listing).
  reflexivity.
Defined.

(** ** Which key a request for a specific version ends with *)

Section SpecificChoice.

Variable versionToUse : string.
Hypothesis specific : versionToUse <> "latest".

(** A key that is not a BIN key of the requested version leaves a selected
    key in place. *)
Lemma specific_keeps (st : selection) (key : string) :
  truthy (selectedKey st) = true ->
  (key_version key = Some versionToUse -> is_bin key = false) ->
  select_step versionToUse st key = st.
Proof.
  intros T H. unfold select_step.
  destruct (key_version key) as [kv|] eqn:K; [|reflexivity].
  rewrite (not_latest _ specific).
  destruct (String.eqb_spec kv versionToUse) as [->|_]; [|reflexivity].
  unfold is_bin in H. rewrite T, (H eq_refl). cbn [negb orb].
  rewrite andb_false_r. reflexivity.
Qed.

Lemma specific_keeps_all (keys : list string) : forall st : selection,
  truthy (selectedKey st) = true ->
  (forall key, In key keys -> key_version key = Some versionToUse -> is_bin key = false) ->
  select_from versionToUse st keys = st.
Proof.
  induction keys as [|key keys IH]; intros st T H; [reflexivity|].
  cbn [select_from fold_left].
  rewrite specific_keeps; [|exact T|apply H; left; reflexivity].
  apply IH; [exact T|]. intros k Hk. apply H. right. exact Hk.
Qed.

(** A BIN key of the requested version is always taken. *)
Lemma specific_takes_bin (st : selection) (key : string) :
  key_version key = Some versionToUse -> is_bin key = true ->
  selectedKey (select_step versionToUse st key) = Some key.
Proof.
  intros K B. unfold select_step. rewrite K, (not_latest _ specific), String.eqb_refl.
  unfold is_bin in B. rewrite B, !orb_true_r. reflexivity.
Qed.

(** A key of the requested version is taken when none is selected. *)
Lemma specific_takes_first (st : selection) (key : string) :
  selectedKey st = None -> key_version key = Some versionToUse ->
  selectedKey (select_step versionToUse st key) = Some key.
Proof.
  intros N K. unfold select_step. rewrite K, (not_latest _ specific), String.eqb_refl, N.
  reflexivity.
Qed.

End SpecificChoice.

(** X9: a request for a specific version ends with the last listed BIN key
    of that version when there is one, and otherwise with the first listed
    key of that version. *)
Theorem specific_selects_last_bin_else_first
    (versionToUse : string) (before after : list string) (key : string) :
  versionToUse <> "latest" ->
  key_version key = Some versionToUse ->
  (forall k, In k after -> key_version k = Some versionToUse -> is_bin k = false) ->
  is_bin key = true \/
  (forall k, In k before -> key_version k <> Some versionToUse) ->
  selectedKey (select_keys versionToUse (before ++ key :: after)) = Some key.
Proof.
  intros Hv K Hafter Hcase. unfold select_keys.
  rewrite select_from_app. cbn [select_from fold_left].
  fold (select_from versionToUse initial_selection before).
  fold (select_from versionToUse
          (select_step versionToUse (select_from versionToUse initial_selection before) key)
          after).
  assert (Hstep : selectedKey
                    (select_step versionToUse
                       (select_from versionToUse initial_selection before) key)
                  = Some key).
  { destruct Hcase as [B|Hbefore].
    - apply specific_takes_bin; assumption.
    - rewrite (specific_no_match versionToUse Hv before).
      + apply specific_takes_first; [assumption | reflexivity | assumption].
      + intros [k [Hin Hk]]. exact (Hbefore k Hin Hk). }
  rewrite (specific_keeps_all versionToUse Hv after); [exact Hstep | | exact Hafter].
  rewrite Hstep. apply (key_version_nonempty _ _ K).
Qed.

Lemma specific_selects_last_bin_else_first_witness :
  selectedKey (select_keys "6.2.5.16868" ([dfu_key] ++ bin_key :: [dfu_key])) = Some bin_key /\
  selectedKey (select_keys "6.2.5.16868" ([] ++ dfu_key :: [dfu_key])) = Some dfu_key.
Proof.
  split.
  - apply (specific_selects_last_bin_else_first "6.2.5.16868" [dfu_key] [dfu_key] bin_key).
    + discriminate.
    + vm_compute. reflexivity.
    + intros k [<-|[]] _. vm_compute. reflexivity.
    + left. vm_compute. reflexivity.
  - apply (specific_selects_last_bin_else_first "6.2.5.16868" [] [dfu_key] dfu_key).
    + discriminate.
    + vm_compute. reflexivity.
    + intros k [<-|[]] _. vm_compute. reflexivity.
    + right. intros k [].
Defined.

(** ** The up-to-date answer does not depend on the order of the listing *)

Lemma encoded_permutation (keys keys' : list string) (w : string) :
  Permutation keys keys' -> encoded keys w -> encoded keys' w.
Proof.
  intros P [k [Hin Hk]]. exists k. split; [|exact Hk].
  apply (Permutation_in _ P). exact Hin.
Qed.

(** The tracked version is the initial one or the Version of a key. *)
Lemma latest_tracked_well_formed (keys : list string) :
  well_formed_version (latestVersion (select_keys "latest" keys)) = true.
Proof.
  unfold select_keys.
  assert (G : forall st, well_formed_version (latestVersion st) = true ->
              well_formed_version (latestVersion (select_from "latest" st keys)) = true).
  { induction keys as [|key keys IH]; intros st W; [exact W|].
    cbn [select_from fold_left]. apply IH. unfold select_step.
    destruct (key_version key) as [kv|] eqn:K; [|exact W].
    change (String.eqb "latest" "latest") with true. cbv iota.
    destruct (_ >? _)%Z; [apply (key_version_sound _ _ K)|].
    destruct (_ && _ && _ && _); exact W. }
  apply G. reflexivity.
Qed.

(** The version tracked over one order is at most the one tracked over
    another. *)
Lemma latest_version_le (keys keys' : list string) :
  Permutation keys keys' ->
  (compareVersions (latestVersion (select_keys "latest" keys))
                   (latestVersion (select_keys "latest" keys')) <= 0)%Z.
Proof.
  intros P.
  destruct (latest_select_keys keys) as [_ [I2 I3]].
  destruct (latest_select_keys keys') as [I1' _].
  destruct (selectedKey (select_keys "latest" keys)) as [k|] eqn:Hsel.
  - destruct (I3 k eq_refl) as [Hin [v [Hkv Heq]]].
    apply (compareVersions_trans _ v).
    + rewrite compareVersions_swap. lia.
    + apply I1'. apply (encoded_permutation keys); [exact P|]. exists k. auto.
  - rewrite (I2 eq_refl).
    pose proof (compareVersions_zero _ (latest_tracked_well_formed keys')) as Z.
    rewrite compareVersions_swap. lia.
Qed.

Lemma up_to_date_order (keys keys' : list string) (cur : string) :
  Permutation keys keys' ->
  (compareVersions cur (latestVersion (select_keys "latest" keys)) >= 0)%Z ->
  (compareVersions cur (latestVersion (select_keys "latest" keys')) >= 0)%Z.
Proof.
  intros P H. apply compareVersions_ge_of_le.
  apply (compareVersions_trans _ (latestVersion (select_keys "latest" keys))).
  - apply latest_version_le. apply Permutation_sym. exact P.
  - rewrite compareVersions_swap. lia.
Qed.

Lemma filtered_permutation (notecardType xml xml' : string) :
  Permutation (extractKeysFromXml xml) (extractKeysFromXml xml') ->
  Permutation (filtered_keys notecardType xml) (filtered_keys notecardType xml').
Proof.
  unfold filtered_keys, relevant. generalize (extractKeysFromXml xml) (extractKeysFromXml xml').
  intros l l' P. induction P as [|x l l' P IH|x y l|l l' l'' P IH P' IH']; cbn [filter].
  - constructor.
  - destruct (includes _ x); [constructor|]; exact IH.
  - destruct (includes _ x), (includes _ y); try apply Permutation_refl.
    apply perm_swap.
  - apply (Permutation_trans IH IH').
Qed.

(** [findFirmwareUrl] returns [null] only from the up-to-date test. *)
Lemma findFirmwareUrl_null
    (fetched : fetch_outcome) (updateType notecardType versionToUse : string)
    (currentVersion : option string) :
  findFirmwareUrl fetched updateType notecardType versionToUse currentVersion
  = Resolved None <->
  exists xml,
    fetch_text fetched = inr xml /\
    filtered_keys notecardType xml <> [] /\
    versionToUse = "latest" /\
    exists cur, currentVersion = Some cur /\ cur <> "" /\
      (compareVersions cur
         (latestVersion (select_keys "latest" (filtered_keys notecardType xml)))
       >= 0)%Z.
Proof.
  unfold findFirmwareUrl. split.
  - intros H.
    destruct (findFirmwareUrl_try fetched updateType notecardType versionToUse
                currentVersion) as [m|r] eqn:T; [discriminate|].
    injection H as ->. revert T. unfold findFirmwareUrl_try.
    destruct (fetch_text fetched) as [m|xml] eqn:F; [discriminate|].
    destruct (length (extractKeysFromXml xml) =? 0)%nat; [discriminate|].
    destruct (length (relevant notecardType (extractKeysFromXml xml)) =? 0)%nat eqn:L;
      [discriminate|].
    intros T. apply findFirmwareUrl_select_null in T.
    exists xml. split; [reflexivity|]. split; [|exact T].
    apply length_eqb_0. exact L.
  - intros [xml [F [K [-> Hcur]]]].
    rewrite (findFirmwareUrl_try_reached _ xml) by assumption.
    replace (findFirmwareUrl_select (filtered_keys notecardType xml) notecardType
               "latest" currentVersion) with (@inr string (option string) None);
      [reflexivity|].
    symmetry. apply findFirmwareUrl_select_null. auto.
Qed.

(** X10: for a "latest" request, whether the answer is UpToDate does not
    depend on the order in which the listing gives its keys. *)
Theorem up_to_date_ignores_order
    (xml xml' updateType notecardType : string) (currentVersion : option string)
    (status status' : N) (statusText statusText' : string) :
  Permutation (extractKeysFromXml xml) (extractKeysFromXml xml') ->
  findFirmwareUrl (FetchResponse true status statusText xml)
    updateType notecardType "latest" currentVersion = Resolved None ->
  findFirmwareUrl (FetchResponse true status' statusText' xml')
    updateType notecardType "latest" currentVersion = Resolved None.
Proof.
  intros P H.
  apply findFirmwareUrl_null in H.
  destruct H as [x [F [K [_ [cur [Hc [Hn Hge]]]]]]].
  injection F as <-.
  apply findFirmwareUrl_null.
  exists xml'. split; [reflexivity|].
  pose proof (filtered_permutation notecardType xml xml' P) as PF.
  split.
  - intros E. rewrite E in PF. apply Permutation_sym, Permutation_nil in PF.
    contradiction.
  - split; [reflexivity|]. exists cur. repeat split; try assumption.
    apply (up_to_date_order _ _ _ PF Hge).
Qed.

Lemma scenario_keys_bin_first :
  extractKeysFromXml scenario_listing_bin_first = [bin_key; dfu_key].
Proof. vm_compute. reflexivity. Qed.

Lemma up_to_date_ignores_order_witness :
  findFirmwareUrl (FetchResponse true 200 "OK" scenario_listing_bin_first)
    "LTS" "u5" "latest" (Some "6.2.5.16868") = Resolved None.
Proof.
  apply (up_to_date_ignores_order scenario_listing scenario_listing_bin_first
           "LTS" "u5" (Some "6.2.5.16868") 200%N 200%N "OK" "OK").
  - rewrite scenario_keys, scenario_keys_bin_first. apply perm_swap.
  - vm_compute. reflexivity.
Defined.

(** ** When two versions compare equal *)

Lemma number_eq_of_neither (x y : number) :
  x <> NaN -> y <> NaN -> gt x y = false -> lt x y = false -> x = y.
Proof.
  destruct x as [|x|], y as [|y|]; simpl; intros Hx Hy G L;
    try congruence; try discriminate.
  apply N.ltb_ge in G, L. f_equal. lia.
Qed.

Lemma lex_compare_zero (a : list number) : forall b : list number,
  length a = length b ->
  Forall (fun x => x <> NaN) a -> Forall (fun x => x <> NaN) b ->
  (lex_compare a b = 0%Z <-> a = b).
Proof.
  induction a as [|x a IH]; intros [|y b] L Fa Fb; try discriminate L.
  - split; reflexivity.
  - inversion Fa as [|? ? Hx Fa']; inversion Fb as [|? ? Hy Fb']; subst.
    cbn [lex_compare]. split.
    + destruct (gt x y) eqn:G; [discriminate|].
      destruct (lt x y) eqn:Lt; [discriminate|].
      intros H. rewrite (number_eq_of_neither x y Hx Hy G Lt).
      f_equal. apply IH; auto.
    + intros [= -> ->]. rewrite gt_irrefl, lt_irrefl. apply IH; auto.
Qed.

Lemma pad_zeros_length (n : nat) (l : list number) :
  length l <= n -> length (pad_zeros n l) = n.
Proof. intros H. unfold pad_zeros. rewrite length_app, repeat_length. lia. Qed.

Lemma pad_zeros_Forall (n : nat) (l : list number) :
  Forall (fun x => x <> NaN) l -> Forall (fun x => x <> NaN) (pad_zeros n l).
Proof.
  intros H. unfold pad_zeros. apply Forall_app. split; [exact H|].
  apply Forall_forall. intros x Hx. apply repeat_spec in Hx. subst x. discriminate.
Qed.

(** X11: [compareVersions] returns 1, 0 or -1, and on well-formed versions
    it returns 0 exactly when the two component tuples, the shorter one
    filled up with zeros, are equal number by number. *)
Theorem compare_zero_iff_same_numbers (a b : string) :
  well_formed_version a = true ->
  well_formed_version b = true ->
  (compareVersions a b = 1%Z \/ compareVersions a b = 0%Z \/ compareVersions a b = (-1)%Z) /\
  (compareVersions a b = 0%Z <->
   pad_zeros (Nat.max (length (version_components a)) (length (version_components b)))
     (version_components a)
   = pad_zeros (Nat.max (length (version_components a)) (length (version_components b)))
       (version_components b)).
Proof.
  intros Ha Hb. split; [apply compareVersions_range|].
  rewrite (compareVersions_spec a b Ha Hb). unfold compare_spec.
  apply lex_compare_zero.
  - rewrite !pad_zeros_length by lia. reflexivity.
  - apply pad_zeros_Forall, well_formed_components, Ha.
  - apply pad_zeros_Forall, well_formed_components, Hb.
Qed.

Lemma compare_zero_iff_same_numbers_witness :
  compareVersions "6.2.05.16868" "6.2.5.16868.0" = 0%Z.
Proof.
  destruct (compare_zero_iff_same_numbers "6.2.05.16868" "6.2.5.16868.0") as [_ [_ H]].
  - reflexivity.
  - reflexivity.
  - apply H. vm_compute. reflexivity.
Defined.

(** ** The firmware tools *)

Lemma or_default_cases (a : option string) (d : string) :
  (exists s, a = Some s /\ s <> "" /\ or_default a d = s) \/
  (truthy a = false /\ or_default a d = d).
Proof.
  destruct a as [s|]; [|right; split; reflexivity].
  destruct (truthy (Some s)) eqn:T.
  - left. exists s. unfold or_default. rewrite T.
    apply truthy_Some in T. auto.
  - right. unfold or_default. rewrite T. auto.
Qed.

Lemma valid_channel (channel : string) :
  existsb (String.eqb channel) validTypes = true <-> In channel validTypes.
Proof.
  rewrite existsb_exists. split.
  - intros [x [Hin E]]. apply String.eqb_eq in E. subst. exact Hin.
  - intros H. exists channel. split; [exact H | apply String.eqb_refl].
Qed.

(** X12: when the update tool goes on to a download, the channel is one of
    LTS, DevRel and nightly (LTS when none is given), the model has a
    hardware type, the port is the given one or else the discovered one
    and is not empty, and the URL is the firmware host followed by a key
    of the listing of that channel that contains [-<type>-] and carries a
    Version, the requested one when an update version other than "latest"
    is given. *)
Theorem update_downloads_listed_firmware
    (fetch : string -> fetch_outcome) (discoveredNotecardPort : option string)
    (notecard updateVersion inputCurrentVersion updateChannel notecardModel : option string)
    (portToUse firmwareUrl : string) :
  update_firmware_tool fetch discoveredNotecardPort
    notecard updateVersion inputCurrentVersion updateChannel notecardModel
  = Download portToUse firmwareUrl ->
  exists channel notecardType xml key kv,
    channel = or_default updateChannel "LTS" /\
    In channel ["LTS"; "DevRel"; "nightly"] /\
    getNotecardTypeFromModel notecardModel = Some notecardType /\
    portToUse <> "" /\
    (notecard = Some portToUse \/
     (truthy notecard = false /\ discoveredNotecardPort = Some portToUse)) /\
    fetch_text (fetch (firmwareIndexUrl channel)) = inr xml /\
    In key (extractKeysFromXml xml) /\
    includes ("-" ++ notecardType ++ "-") key = true /\
    key_version key = Some kv /\
    (forall v, updateVersion = Some v -> v <> "" -> v <> "latest" -> kv = v) /\
    firmwareUrl = "https://notecard-firmware.s3.amazonaws.com/" ++ key.
Proof.
  unfold update_firmware_tool. intros H.
  destruct (existsb (String.eqb (or_default updateChannel "LTS")) validTypes) eqn:V;
    [|discriminate H].
  cbn [negb] in H.
  destruct (getNotecardTypeFromModel notecardModel) as [notecardType|] eqn:T;
    [|discriminate H].
  destruct (or_else notecard discoveredNotecardPort) as [port|] eqn:P; [|discriminate H].
  destruct (truthy (Some port)) eqn:TP; [|discriminate H].
  cbn [negb] in H.
  destruct (findFirmwareUrl _ _ _ _ _) as [[url|]|m] eqn:R; try discriminate H.
  injection H as <- <-.
  destruct (findFirmwareUrl_url_sound _ _ _ _ _ _ R)
    as [xml [key [kv [F [Hin [Htok [Hkv [Hreq Hurl]]]]]]]].
  exists (or_default updateChannel "LTS"), notecardType, xml, key, kv.
  split; [reflexivity|].
  split; [apply valid_channel; exact V|].
  split; [reflexivity|].
  split; [apply truthy_Some; exact TP|].
  split.
  { unfold or_else in P. destruct (truthy notecard) eqn:TN; auto. }
  repeat (split; [assumption|]).
  split; [|exact Hurl].
  intros v -> Hne Hnl.
  assert (E : or_default (Some v) "latest" = v).
  { unfold or_default. rewrite (proj2 (truthy_Some v) Hne). reflexivity. }
  rewrite E in Hreq. exact (Hreq Hnl).
Qed.

Lemma update_downloads_listed_firmware_witness :
  exists channel notecardType xml key kv,
    channel = or_default None "LTS" /\
    In channel ["LTS"; "DevRel"; "nightly"] /\
    getNotecardTypeFromModel (Some "NOTE-WBNA") = Some notecardType /\
    "/dev/ttyACM0" <> "" /\
    (@None string = Some "/dev/ttyACM0" \/
     (truthy None = false /\ Some "/dev/ttyACM0" = Some "/dev/ttyACM0")) /\
    fetch_text (fetched_ok scenario_listing) = inr xml /\
    In key (extractKeysFromXml xml) /\
    includes ("-" ++ notecardType ++ "-") key = true /\
    key_version key = Some kv /\
    (forall v, Some "6.2.5.16868" = Some v -> v <> "" -> v <> "latest" -> kv = v) /\
    "https://notecard-firmware.s3.amazonaws.com/LTS/notecard-u5-6.2.5.16868.bin"
    = "https://notecard-firmware.s3.amazonaws.com/" ++ key.
Proof.
  apply (update_downloads_listed_firmware (fun _ => fetched_ok scenario_listing)
           (Some "/dev/ttyACM0") None (Some "6.2.5.16868") None None (Some "NOTE-WBNA")
           "/dev/ttyACM0").
  vm_compute. reflexivity.
Defined.

(** X13: when the channel is not one of LTS, DevRel and nightly, or the
    model has no hardware type, or no port is given or discovered, the
    update tool replies with an error text and never goes on to a
    download; the reply is the same whatever a fetch would have
    returned. *)
Theorem update_refuses_before_fetch
    (fetch fetch' : string -> fetch_outcome) (discoveredNotecardPort : option string)
    (notecard updateVersion inputCurrentVersion updateChannel notecardModel : option string) :
  ~ In (or_default updateChannel "LTS") ["LTS"; "DevRel"; "nightly"] \/
  getNotecardTypeFromModel notecardModel = None \/
  truthy (or_else notecard discoveredNotecardPort) = false ->
  (exists text,
     update_firmware_tool fetch discoveredNotecardPort
       notecard updateVersion inputCurrentVersion updateChannel notecardModel
     = Reply text) /\
  update_firmware_tool fetch discoveredNotecardPort
    notecard updateVersion inputCurrentVersion updateChannel notecardModel
  = update_firmware_tool fetch' discoveredNotecardPort
      notecard updateVersion inputCurrentVersion updateChannel notecardModel.
Proof.
  intros H. unfold update_firmware_tool.
  destruct (existsb (String.eqb (or_default updateChannel "LTS")) validTypes) eqn:V;
    cbn [negb]; [|split; [eexists|]; reflexivity].
  destruct H as [H|H]; [exfalso; apply H; apply valid_channel; exact V|].
  destruct (getNotecardTypeFromModel notecardModel) as [notecardType|];
    [|split; [eexists|]; reflexivity].
  destruct H as [H|H]; [discriminate H|].
  destruct (or_else notecard discoveredNotecardPort) as [port|];
    [|split; [eexists|]; reflexivity].
  rewrite H. cbn [negb]. split; [eexists|]; reflexivity.
Qed.

Lemma update_refuses_before_fetch_witness :
  (exists text,
     update_firmware_tool (fun _ => fetched_ok scenario_listing) None
       (Some "/dev/ttyACM0") None None (Some "beta") (Some "NOTE-WBNA")
     = Reply text) /\
  update_firmware_tool (fun _ => fetched_ok scenario_listing) None
    (Some "/dev/ttyACM0") None None (Some "beta") (Some "NOTE-WBNA")
  = update_firmware_tool (fun _ => FetchRejected "offline") None
      (Some "/dev/ttyACM0") None None (Some "beta") (Some "NOTE-WBNA").
Proof.
  apply (update_refuses_before_fetch (fun _ => fetched_ok scenario_listing)
           (fun _ => FetchRejected "offline") None
           (Some "/dev/ttyACM0") None None (Some "beta") (Some "NOTE-WBNA")).
  left. intros [H|[H|[H|[]]]]; discriminate H.
Defined.

(** X14: the listing tool replies with an error text, whatever a fetch
    would return, when the model has no hardware type; otherwise a failed
    fetch rejects the handler (it does not catch), and a fetched listing
    gives the reply "Available firmware versions for <channel>: " followed
    by the Versions, each once and joined by [", "], that the listed keys
    containing [-<type>-] carry.  The channel is not checked. *)
Theorem list_tool_reports_versions
    (fetch : string -> fetch_outcome) (updateChannel notecardModel : string) :
  (getNotecardTypeFromModel (Some notecardModel) = None ->
   list_firmware_versions_tool fetch updateChannel notecardModel
   = Resolved ("Error: Could not determine Notecard type for model '"
               ++ notecardModel ++ "'. Check the provided model.")) /\
  (forall notecardType message,
     getNotecardTypeFromModel (Some notecardModel) = Some notecardType ->
     fetch_text (fetch (firmwareIndexUrl updateChannel)) = inl message ->
     list_firmware_versions_tool fetch updateChannel notecardModel
     = Rejected ("Could not list firmware versions: " ++ message)) /\
  (forall notecardType xml,
     getNotecardTypeFromModel (Some notecardModel) = Some notecardType ->
     fetch_text (fetch (firmwareIndexUrl updateChannel)) = inr xml ->
     exists versions,
       list_firmware_versions_tool fetch updateChannel notecardModel
       = Resolved ("Available firmware versions for " ++ updateChannel ++ ": "
                   ++ join ", " versions) /\
       NoDup versions /\
       forall v, In v versions <->
                 exists key, In key (extractKeysFromXml xml) /\
                             includes ("-" ++ notecardType ++ "-") key = true /\
                             key_version key = Some v).
Proof.
  unfold list_firmware_versions_tool. split; [|split].
  - intros ->. reflexivity.
  - intros notecardType message -> F.
    unfold listAvailableFirmwareVersions. rewrite F. reflexivity.
  - intros notecardType xml -> F.
    rewrite (listAvailable_ok _ xml) by exact F.
    exists (extractAvailableVersions (filtered_keys notecardType xml)).
    split; [reflexivity|]. split; [apply extractAvailableVersions_NoDup|].
    intros v. rewrite extractAvailableVersions_In. split.
    + intros [key [Hin Hk]]. apply filtered_keys_In in Hin. exists key. tauto.
    + intros [key [Hin [Hi Hk]]]. exists key. split; [|exact Hk].
      apply filtered_keys_In. auto.
Qed.

(** ** The port of the Notecard *)

Ltac by_cases_on_char c :=
  destruct c as [[] [] [] [] [] [] [] []]; vm_compute;
  intros H; try discriminate H; auto.

Lemma lower_char_3 (c : ascii) : lower_char c = "3"%char -> c = "3"%char.
Proof. by_cases_on_char c. Qed.

Lemma lower_char_0 (c : ascii) : lower_char c = "0"%char -> c = "0"%char.
Proof. by_cases_on_char c. Qed.

Lemma lower_char_4 (c : ascii) : lower_char c = "4"%char -> c = "4"%char.
Proof. by_cases_on_char c. Qed.

Lemma lower_char_a (c : ascii) :
  lower_char c = "a"%char -> c = "a"%char \/ c = "A"%char.
Proof. by_cases_on_char c. Qed.

(** Only the two spellings of the vendor identifier lowercase to it. *)
Lemma toLowerCase_vid (v : string) :
  String.eqb (toLowerCase v) notecardVID = true <-> v = "30a4" \/ v = "30A4".
Proof.
  split.
  - intros H. apply String.eqb_eq in H.
    destruct v as [|c1 [|c2 [|c3 [|c4 [|c5 v]]]]]; try discriminate H.
    cbn [toLowerCase] in H. injection H as H1 H2 H3 H4.
    apply lower_char_3 in H1. apply lower_char_0 in H2.
    apply lower_char_a in H3. apply lower_char_4 in H4.
    subst c1 c2 c4. destruct H3 as [->| ->]; auto.
  - intros [->| ->]; reflexivity.
Qed.

Lemma is_notecard_port_vid (q : port_info) :
  is_notecard_port q = true <->
  vendorId q = Some "30a4" \/ vendorId q = Some "30A4".
Proof.
  unfold is_notecard_port. destruct (vendorId q) as [v|].
  - rewrite andb_true_iff, toLowerCase_vid. split.
    + intros [_ [->| ->]]; auto.
    + intros [[= ->]|[= ->]]; split; auto.
  - split; [discriminate | intros [H|H]; discriminate H].
Qed.

Lemma scan_ports_stores (listed : option string + list port_info) (p : string) :
  fst (scan_ports listed) = Some p <->
  exists ports found,
    listed = inr ports /\ filter is_notecard_port ports = [found] /\ path found = p.
Proof.
  unfold scan_ports. destruct listed as [message|ports].
  - split; [discriminate | intros [ports [found [H _]]]; discriminate H].
  - destruct (filter is_notecard_port ports) as [|found [|second rest]] eqn:E; cbn [fst].
    + split; [discriminate | intros [ps [f [[= <-] [H _]]]]].
      rewrite E in H. discriminate H.
    + split.
      * intros [= <-]. exists ports, found. auto.
      * intros [ps [f [[= <-] [H Hp]]]]. rewrite E in H. injection H as <-.
        rewrite Hp. reflexivity.
    + split; [discriminate | intros [ps [f [[= <-] [H _]]]]].
      rewrite E in H. discriminate H.
Qed.

(** X15: the port tool stores a port exactly when a non-empty port is
    given, or when none is given and the scan succeeds with exactly one
    port of the Notecard vendor; with no such port, several of them or a
    failed scan, it stores none.  A port is of the Notecard vendor exactly
    when its vendor identifier is ["30a4"] or ["30A4"]. *)
Theorem find_port_stores_one_notecard
    (port : option string) (listed : option string + list port_info) (p : string)
    (q : port_info) :
  (is_notecard_port q = true <->
   vendorId q = Some "30a4" \/ vendorId q = Some "30A4") /\
  (fst (find_port_tool port listed) = Some p <->
   (port = Some p /\ p <> "") \/
   (truthy port = false /\
    exists ports found,
      listed = inr ports /\ filter is_notecard_port ports = [found] /\ path found = p)).
Proof.
  split; [apply is_notecard_port_vid|].
  unfold find_port_tool. destruct port as [given|].
  - destruct (truthy (Some given)) eqn:T.
    + cbn [fst]. split.
      * intros [= <-]. left. split; [reflexivity | apply truthy_Some; exact T].
      * intros [[[= <-] _]|[H _]]; [reflexivity | discriminate H].
    + rewrite scan_ports_stores. split; [auto|].
      intros [[[= <-] Hne]|[_ H]]; [|exact H].
      apply truthy_Some in Hne. congruence.
  - rewrite scan_ports_stores. split; [auto|].
    intros [[H _]|[_ H]]; [discriminate H | exact H].
Qed.

(** ** parseTypesString *)

Lemma parse_types_loop_eq (turns : nat) (s : string) :
  parse_types_loop (S turns) s =
  if (0 <? String.length s)%nat then
    match first_known_type s with
    | Some type => type :: parse_types_loop turns (drop (String.length type) s)
    | None => []
    end
  else [].
Proof. reflexivity. Qed.

Lemma first_known_type_known (s type : string) :
  first_known_type s = Some type ->
  In type knownTypes /\ String.prefix type s = true.
Proof.
  unfold first_known_type. intros H. apply find_some in H. exact H.
Qed.

Lemma known_type_length (type : string) :
  In type knownTypes -> 4 <= String.length type.
Proof.
  intros [<-|[<-|[<-|[<-|[]]]]]; vm_compute; repeat constructor.
Qed.

(** X16: the parsed types are known types, their concatenation is the
    beginning of the trimmed text, and what is left of the text is empty
    or starts with no known type; so the parse stops at the first blank
    between two badges. *)
Theorem parsed_types_are_a_prefix (typesString : string) :
  exists rest,
    trim typesString = String.concat "" (parseTypesString typesString) ++ rest /\
    Forall (fun type => In type knownTypes) (parseTypesString typesString) /\
    (rest = "" \/ first_known_type rest = None) /\
    parseTypesString "Cell WiFi" = ["Cell"].
Proof.
  unfold parseTypesString.
  assert (G : forall turns s, String.length s <= turns ->
            exists rest,
              s = String.concat "" (parse_types_loop turns s) ++ rest /\
              Forall (fun type => In type knownTypes) (parse_types_loop turns s) /\
              (rest = "" \/ first_known_type rest = None)).
  { induction turns as [|turns IH]; intros s L.
    - destruct s; [|cbn [String.length] in L; lia].
      exists "". repeat split; auto.
    - rewrite parse_types_loop_eq.
      destruct s as [|c s]; [exists ""; repeat split; auto|].
      cbn [String.length Nat.ltb Nat.leb].
      destruct (first_known_type (String c s)) as [type|] eqn:F.
      + destruct (first_known_type_known _ _ F) as [Hk Hp].
        pose proof (known_type_length _ Hk) as Hl.
        pose proof (prefix_drop _ _ Hp) as Hs.
        destruct (IH (drop (String.length type) (String c s))) as [rest [E [Fa R]]].
        { assert (String.length (String c s)
                  = String.length type + String.length (drop (String.length type) (String c s)))
            by (rewrite <- length_append, <- Hs; reflexivity).
          cbn [String.length] in *. lia. }
        exists rest. split; [|split; [constructor; assumption | exact R]].
        rewrite Hs at 1. rewrite E at 1.
        set (tl := parse_types_loop turns (drop (String.length type) (String c s))).
        destruct tl; cbn [String.concat]; append_normal; reflexivity.
      + exists (String c s). repeat split; auto. }
  destruct (G (String.length (trim typesString)) (trim typesString) (le_n _))
    as [rest [E [Fa R]]].
  exists rest. repeat split; assumption.
Qed.

Lemma append_nil_r (s : string) : s ++ "" = s.
Proof. induction s as [|c s IH]; [reflexivity|]. cbn [append]. rewrite IH. reflexivity. Qed.

Lemma concat_cons (t : string) (ts : list string) :
  String.concat "" (t :: ts) = t ++ String.concat "" ts.
Proof.
  destruct ts; cbn [String.concat]; [rewrite append_nil_r|]; reflexivity.
Qed.

(** A concatenation of known types is empty or starts with a known type. *)
Lemma concat_known_head (ts : list string) :
  Forall (fun type => In type knownTypes) ts ->
  String.concat "" ts = "" \/
  exists t r, In t knownTypes /\ String.concat "" ts = t ++ r.
Proof.
  intros H. destruct H as [|t ts Ht _]; [left; reflexivity|].
  right. exists t, (String.concat "" ts). split; [exact Ht | apply concat_cons].
Qed.

(** The loop takes the known type the text was built from, not a shorter
    or a longer one. *)
Lemma first_known_type_head (t r : string) :
  In t knownTypes ->
  r = "" \/ (exists t' r', In t' knownTypes /\ r = t' ++ r') ->
  first_known_type (t ++ r) = Some t.
Proof.
  intros Ht Hr.
  destruct Hr as [->|[t' [r' [Ht' ->]]]].
  - destruct Ht as [<-|[<-|[<-|[<-|[]]]]]; reflexivity.
  - destruct Ht as [<-|[<-|[<-|[<-|[]]]]];
      destruct Ht' as [<-|[<-|[<-|[<-|[]]]]]; reflexivity.
Qed.

Lemma parse_types_loop_concat (ts : list string) : forall turns : nat,
  Forall (fun type => In type knownTypes) ts ->
  String.length (String.concat "" ts) <= turns ->
  parse_types_loop turns (String.concat "" ts) = ts.
Proof.
  induction ts as [|t ts IH]; intros turns H L.
  - destruct turns; reflexivity.
  - inversion H as [|? ? Ht Hts]; subst.
    rewrite concat_cons in *. rewrite length_append in L.
    pose proof (known_type_length t Ht) as Hl.
    destruct turns as [|turns]; [lia|].
    rewrite parse_types_loop_eq.
    assert (Pos : (0 <? String.length (t ++ String.concat "" ts))%nat = true).
    { apply Nat.ltb_lt. rewrite length_append. lia. }
    rewrite Pos, first_known_type_head; [|exact Ht|].
    + rewrite drop_append, IH; [reflexivity | exact Hts | lia].
    + destruct (concat_known_head ts Hts) as [E|E]; auto.
Qed.

Lemma trimEnd_cons (c : ascii) (s : string) :
  trimEnd (String c s) =
  match trimEnd s with
  | EmptyString => if is_space c then EmptyString else String c EmptyString
  | t => String c t
  end.
Proof. reflexivity. Qed.

Lemma trimEnd_append (a r : string) :
  r <> "" -> trimEnd r = r -> trimEnd (a ++ r) = a ++ r.
Proof.
  intros Hn Hr. induction a as [|c a IH]; [exact Hr|].
  cbn [append]. rewrite trimEnd_cons, IH.
  destruct (a ++ r) eqn:E; [|reflexivity].
  destruct a; [cbn [append] in E; congruence | discriminate E].
Qed.

Lemma concat_known_trimEnd (ts : list string) :
  Forall (fun type => In type knownTypes) ts ->
  trimEnd (String.concat "" ts) = String.concat "" ts.
Proof.
  induction ts as [|t ts IH]; intros H; [reflexivity|].
  inversion H as [|? ? Ht Hts]; subst.
  destruct ts as [|t' ts].
  - cbn [String.concat]. destruct Ht as [<-|[<-|[<-|[<-|[]]]]]; reflexivity.
  - rewrite concat_cons. apply trimEnd_append; [|apply IH; exact Hts].
    rewrite concat_cons. inversion Hts as [|? ? Ht' _]; subst.
    destruct Ht' as [<-|[<-|[<-|[<-|[]]]]]; discriminate.
Qed.

Lemma concat_known_trimStart (ts : list string) :
  Forall (fun type => In type knownTypes) ts ->
  trimStart (String.concat "" ts) = String.concat "" ts.
Proof.
  intros H. destruct H as [|t ts Ht _]; [reflexivity|].
  rewrite concat_cons. destruct Ht as [<-|[<-|[<-|[<-|[]]]]]; reflexivity.
Qed.

(** X17: a text made of known types written one after the other, without
    blanks, is parsed back into exactly those types, "Cell+WiFi" being
    read as one type and not as "Cell" followed by something else. *)
Theorem parse_types_of_concatenation (types : list string) :
  Forall (fun type => In type knownTypes) types ->
  parseTypesString (String.concat "" types) = types.
Proof.
  intros H. unfold parseTypesString, trim.
  rewrite (concat_known_trimStart types H), (concat_known_trimEnd types H).
  apply parse_types_loop_concat; [exact H | apply le_n].
Qed.

Lemma parse_types_of_concatenation_witness :
  parseTypesString (String.concat "" ["Cell"; "Cell+WiFi"; "LoRa"; "WiFi"])
  = ["Cell"; "Cell+WiFi"; "LoRa"; "WiFi"].
Proof.
  apply parse_types_of_concatenation.
  constructor; [right; left; reflexivity|].
  constructor; [left; reflexivity|].
  constructor; [right; right; left; reflexivity|].
  constructor; [right; right; right; left; reflexivity|].
  constructor.
Defined.

(** ** Listing and resolving agree *)

Lemma version_is_not_latest (key v : string) :
  key_version key = Some v -> v <> "latest".
Proof.
  intros H ->. apply key_version_sound in H. destruct H as [W _]. discriminate W.
Qed.

(** X18: on one fetched listing, the versions that
    [listAvailableFirmwareVersions] returns are exactly the specific
    versions that [findFirmwareUrl] resolves to a URL, whatever the
    current version: a listed version is never answered "not found", and
    no other specific version is resolved. *)
Theorem listed_versions_are_the_resolvable_ones
    (fetched : fetch_outcome) (xml updateType notecardType : string)
    (currentVersion : option string) (versions : list string) (v : string) :
  fetch_text fetched = inr xml ->
  listAvailableFirmwareVersions fetched updateType notecardType = Resolved versions ->
  (In v versions <->
   v <> "latest" /\
   exists firmwareUrl,
     findFirmwareUrl fetched updateType notecardType v currentVersion
     = Resolved (Some firmwareUrl)).
Proof.
  intros F L. rewrite (listAvailable_ok _ xml) in L by exact F. injection L as <-.
  rewrite extractAvailableVersions_In. split.
  - intros [key [Hin Hk]].
    pose proof (version_is_not_latest _ _ Hk) as Hv. split; [exact Hv|].
    assert (K : filtered_keys notecardType xml <> [])
      by (intros E; rewrite E in Hin; exact Hin).
    destruct (findFirmwareUrl_select_specific (filtered_keys notecardType xml)
                notecardType v currentVersion Hv)
      as [k [_ [_ [_ R]]]]; [exists key; auto|].
    exists (firmware_host ++ k). unfold findFirmwareUrl.
    rewrite (findFirmwareUrl_try_reached _ xml) by assumption.
    rewrite R. reflexivity.
  - intros [Hv [url R]].
    destruct (findFirmwareUrl_url_sound _ _ _ _ _ _ R)
      as [xml' [key [kv [F' [Hin [Htok [Hkv [Hreq _]]]]]]]].
    rewrite F in F'. injection F' as <-.
    exists key. split; [apply filtered_keys_In; auto|].
    rewrite Hkv, (Hreq Hv). reflexivity.
Qed.

Lemma listed_versions_are_the_resolvable_ones_witness :
  In "6.2.5.16868" ["6.2.5.16868"] <->
  "6.2.5.16868" <> "latest" /\
  exists firmwareUrl,
    findFirmwareUrl (fetched_ok scenario_listing) "LTS" "u5" "6.2.5.16868" None
    = Resolved (Some firmwareUrl).
Proof.
  apply (listed_versions_are_the_resolvable_ones (fetched_ok scenario_listing)
           scenario_listing "LTS" "u5" None ["6.2.5.16868"] "6.2.5.16868").
  - reflexivity.
  - vm_compute. reflexivity.
Defined.

(** ** The list of scraped requests *)

Section Merge.

Import Api.

Variable requestName : string.
Variable parsedTypes : list string.
Variable argumentsList : list NotecardApiArgument.

Let same_request (item : NotecardApiDetail) : bool :=
  String.eqb (request item) requestName.

Lemma fill_missing_request (e : NotecardApiDetail) :
  request (fill_missing parsedTypes argumentsList e) = request e.
Proof.
  unfold fill_missing.
  destruct ((length (types e) =? 0)%nat && (0 <? length parsedTypes)%nat); cbn [arguments];
    destruct ((length (arguments e) =? 0)%nat && (0 <? length argumentsList)%nat);
    reflexivity.
Qed.

Lemma fill_missing_keeps (e : NotecardApiDetail) :
  (types e <> [] -> types (fill_missing parsedTypes argumentsList e) = types e) /\
  (arguments e <> [] ->
   arguments (fill_missing parsedTypes argumentsList e) = arguments e).
Proof.
  unfold fill_missing. split; intros H.
  - destruct (types e) as [|t ts] eqn:T; [congruence|].
    cbn [length Nat.eqb andb]. rewrite T.
    destruct ((length (arguments e) =? 0)%nat && (0 <? length argumentsList)%nat);
      cbn [types]; congruence.
  - destruct (arguments e) as [|a args] eqn:A; [congruence|].
    destruct ((length (types e) =? 0)%nat && (0 <? length parsedTypes)%nat);
      cbn [arguments]; rewrite ?A; cbn [length Nat.eqb andb];
      [reflexivity | exact A].
Qed.

Lemma findIndex_None (xs : list NotecardApiDetail) :
  findIndex same_request xs = None -> ~ In requestName (map request xs).
Proof.
  induction xs as [|x xs IH]; cbn [findIndex map]; [intros _ []|].
  destruct (same_request x) eqn:S; [discriminate|].
  destruct (findIndex same_request xs); [discriminate|].
  intros _ [H|H]; [|exact (IH eq_refl H)].
  unfold same_request in S. rewrite H, String.eqb_refl in S. discriminate S.
Qed.

Lemma findIndex_Some (xs : list NotecardApiDetail) : forall i : nat,
  findIndex same_request xs = Some i ->
  exists e, nth_error xs i = Some e /\ request e = requestName.
Proof.
  induction xs as [|x xs IH]; intros i; cbn [findIndex]; [discriminate|].
  destruct (same_request x) eqn:S.
  - intros [= <-]. exists x. split; [reflexivity | apply String.eqb_eq; exact S].
  - destruct (findIndex same_request xs) as [j|]; [|discriminate].
    intros [= <-]. apply (IH j eq_refl).
Qed.

Lemma update_at_requests (f : NotecardApiDetail -> NotecardApiDetail)
    (xs : list NotecardApiDetail) : forall i : nat,
  (forall e, request (f e) = request e) ->
  map request (update_at i f xs) = map request xs.
Proof.
  induction xs as [|x xs IH]; intros i H; [destruct i; reflexivity|].
  destruct i; cbn [update_at map]; [rewrite H | rewrite IH by exact H]; reflexivity.
Qed.

Lemma update_at_nth (f : NotecardApiDetail -> NotecardApiDetail)
    (xs : list NotecardApiDetail) : forall (i j : nat) (e : NotecardApiDetail),
  nth_error xs j = Some e ->
  nth_error (update_at i f xs) j = Some (if (j =? i)%nat then f e else e).
Proof.
  induction xs as [|x xs IH]; intros i j e H; [destruct j; discriminate H|].
  destruct i, j; cbn [update_at nth_error Nat.eqb] in *; auto.
  injection H as <-. reflexivity.
Qed.

(** X19: merging a scraped request into the list keeps the request names
    distinct and in place: a new name is appended, a known name adds no
    entry; afterwards the name is in the list; and an entry that was there
    keeps its request, keeps types and arguments that were not empty, and
    is untouched when it is an entry of another request. *)
Theorem merge_request_keeps_entries (allApiDetailsList : list NotecardApiDetail) :
  NoDup (map request allApiDetailsList) ->
  NoDup (map request
           (merge_request allApiDetailsList requestName parsedTypes argumentsList)) /\
  In requestName
    (map request (merge_request allApiDetailsList requestName parsedTypes argumentsList)) /\
  map request (merge_request allApiDetailsList requestName parsedTypes argumentsList)
  = (if existsb (String.eqb requestName) (map request allApiDetailsList)
     then map request allApiDetailsList
     else map request allApiDetailsList ++ [requestName])%list /\
  forall i e,
    nth_error allApiDetailsList i = Some e ->
    exists e',
      nth_error (merge_request allApiDetailsList requestName parsedTypes argumentsList) i
      = Some e' /\
      request e' = request e /\
      (types e <> [] -> types e' = types e) /\
      (arguments e <> [] -> arguments e' = arguments e) /\
      (request e <> requestName -> e' = e).
Proof.
  intros ND. unfold merge_request. fold same_request.
  destruct (findIndex same_request allApiDetailsList) as [i|] eqn:F.
  - destruct (findIndex_Some _ _ F) as [found [Hnth Hreq]].
    assert (Hin : In requestName (map request allApiDetailsList)).
    { rewrite <- Hreq. apply in_map. apply (nth_error_In _ _ Hnth). }
    assert (Hex : existsb (String.eqb requestName) (map request allApiDetailsList) = true).
    { apply existsb_exists. exists requestName. split; [exact Hin | apply String.eqb_refl]. }
    rewrite Hex, (update_at_requests _ _ _ fill_missing_request).
    repeat split; try assumption.
    intros j e Hj. rewrite (update_at_nth _ _ i j e Hj).
    eexists. split; [reflexivity|].
    destruct (Nat.eqb_spec j i) as [->|Hne].
    + rewrite fill_missing_request. split; [reflexivity|].
      destruct (fill_missing_keeps e) as [Ht Ha].
      repeat split; try assumption.
      intros Hr. rewrite Hnth in Hj. injection Hj as <-. contradiction.
    + repeat split; reflexivity.
  - pose proof (findIndex_None _ F) as Hnot.
    assert (Hex : existsb (String.eqb requestName) (map request allApiDetailsList) = false).
    { destruct (existsb _ _) eqn:E; [|reflexivity].
      apply existsb_exists in E. destruct E as [x [Hx E]].
      apply String.eqb_eq in E. subst x. contradiction. }
    rewrite Hex, map_app. cbn [map request].
    repeat split.
    + apply NoDup_app; [exact ND | repeat constructor; intros [] |].
      intros a Ha [<-|[]]. contradiction.
    + apply in_app_iff. right. left. reflexivity.
    + intros j e Hj. exists e. split; [|repeat split; reflexivity].
      rewrite nth_error_app1; [exact Hj|].
      apply nth_error_Some. congruence.
Qed.

End Merge.

Lemma merge_request_keeps_entries_witness :
  NoDup (map Api.request
           (Api.merge_request [Api.mkDetail "card.attn" [] []] "card.attn" ["Cell"] [])) /\
  In "card.attn"
    (map Api.request
       (Api.merge_request [Api.mkDetail "card.attn" [] []] "card.attn" ["Cell"] [])) /\
  Api.merge_request [Api.mkDetail "card.attn" [] []] "card.attn" ["Cell"] []
  = [Api.mkDetail "card.attn" ["Cell"] []].
Proof.
  destruct (merge_request_keeps_entries "card.attn" ["Cell"] []
              [Api.mkDetail "card.attn" [] []]) as [H1 [H2 _]].
  - repeat constructor. intros [].
  - split; [exact H1|]. split; [exact H2|]. reflexivity.
Defined.
